(** * User-level threads library: shallow embedding and verified properties

    The development follows the three source files:
    - [Thread.hpp]: the thread record and its two constructors;
    - [ThreadsCollectionManager.hpp]: the directory of live threads, the ready
      queue, the blocked set, the mutex line and the pool of free ids;
    - [uthreads.cpp]: the public API, the timer-signal handler and the
      context switch.

    Modelling conventions.
    - [int] ids are [Z]; [size_t] counters are [Z] with the wrap-around at
      [2^64] written out ([size_t_incr]).
    - [std::map<int,Thread>] is a [gmap Z Thread], [std::set<int>] a [gset Z]
      whose [begin()] is the least element ([set_begin]), [std::list<int>] a
      [list Z].
    - A [sigjmp_buf] is abstracted to the program point at which [sigsetjmp]
      was called together with the saved signal mask; the saved stack pointer
      and the stack buffer itself are not part of the model.
    - The only signal is SIGVTALRM, so the process signal mask is one boolean
      ([sigmask]); the calls of [sigprocmask] are also recorded in order
      ([sig_log]).
    - System calls ([sigprocmask], [setitimer], [sigaction], [new]) are taken
      to succeed; their failure paths all leave the process.
    - A run is a sequence of whole calls of the library and whole runs of the
      signal handler: the timer signal is delivered between two calls, while
      SIGVTALRM is not blocked, and not in the middle of one. (The calls that
      block the signal are atomic for that reason; for those that do not,
      [uthread_spawn] among them, it is an assumption of the model.)
    - [readyQueue.front()] on an empty list has no defined behaviour; the
      model answers [Undefined] there. *)

From Stdlib Require Import ZArith Lia.
From stdpp Require Import gmap list.

Set Warnings "-clear-no-such-hyp".

Local Open Scope Z_scope.

(** ** Machine integers and constants *)

Definition size_t_incr (n : Z) : Z := (n + 1) mod 2 ^ 64.

(** Conversion of a [size_t] to the [int] a query returns. *)
Definition int_of_size_t (n : Z) : Z :=
  let r := n mod 2 ^ 32 in
  if r <? 2 ^ 31 then r else r - 2 ^ 32.

Definition FAILURE : Z := -1.
Definition SUCCESS : Z := 0.
Definition EXIT_SUCCESS : Z := 0.

(** ** Thread.hpp *)

(** The address of a thread's entry function. *)
Definition EntryPoint : Type := Z.

(** The places at which a context is captured: the constructor of a spawned
    thread plants the entry function; [sigsetjmp] in [switch_threads] captures
    the call site of [switch_threads], which is one of four. [NoContext] is
    the zeroed buffer [env{0}] of the main thread's constructor. *)
Inductive ProgramPoint : Type :=
| NoContext
| ThreadEntry (f : EntryPoint)
| InTimeSigHandler
| InTerminate (tid : Z)
| InBlock
| InMutexLock.

Record sigjmp_buf : Type := {
  jmp_pc : ProgramPoint;
  saved_mask : bool
}.

Record Thread : Type := {
  id : Z;
  env : sigjmp_buf;
  quantums : Z
}.

(** [Thread(int id, size_t stack_size, EntryPoint entry_point)]: the saved
    mask is emptied by [sigemptyset]. *)
Definition Thread_spawned (new_id : Z) (stack_size : Z) (entry_point : EntryPoint) : Thread :=
  {| id := new_id;
     env := {| jmp_pc := ThreadEntry entry_point; saved_mask := false |};
     quantums := 0 |}.

(** [Thread()]: the main thread. *)
Definition Thread_main : Thread :=
  {| id := 0;
     env := {| jmp_pc := NoContext; saved_mask := false |};
     quantums := 1 |}.

Definition set_env (e : sigjmp_buf) (t : Thread) : Thread :=
  {| id := id t; env := e; quantums := quantums t |}.

Definition incr_quantums (t : Thread) : Thread :=
  {| id := id t; env := env t; quantums := size_t_incr (quantums t) |}.

(** ** ThreadsCollectionManager.hpp *)

Record Manager : Type := {
  curr_thread_id : Z;
  threads : gmap Z Thread;
  readyQueue : list Z;
  waiting_fot_mutex : gset Z;
  available_ids : gset Z;
  blocked : gset Z;
  stack_size : Z
}.

Definition set_curr_thread_id (c : Z) (m : Manager) : Manager :=
  {| curr_thread_id := c; threads := threads m; readyQueue := readyQueue m;
     waiting_fot_mutex := waiting_fot_mutex m; available_ids := available_ids m;
     blocked := blocked m; stack_size := stack_size m |}.

Definition set_threads (ts : gmap Z Thread) (m : Manager) : Manager :=
  {| curr_thread_id := curr_thread_id m; threads := ts; readyQueue := readyQueue m;
     waiting_fot_mutex := waiting_fot_mutex m; available_ids := available_ids m;
     blocked := blocked m; stack_size := stack_size m |}.

Definition set_readyQueue (q : list Z) (m : Manager) : Manager :=
  {| curr_thread_id := curr_thread_id m; threads := threads m; readyQueue := q;
     waiting_fot_mutex := waiting_fot_mutex m; available_ids := available_ids m;
     blocked := blocked m; stack_size := stack_size m |}.

Definition set_waiting_fot_mutex (w : gset Z) (m : Manager) : Manager :=
  {| curr_thread_id := curr_thread_id m; threads := threads m; readyQueue := readyQueue m;
     waiting_fot_mutex := w; available_ids := available_ids m;
     blocked := blocked m; stack_size := stack_size m |}.

Definition set_available_ids (a : gset Z) (m : Manager) : Manager :=
  {| curr_thread_id := curr_thread_id m; threads := threads m; readyQueue := readyQueue m;
     waiting_fot_mutex := waiting_fot_mutex m; available_ids := a;
     blocked := blocked m; stack_size := stack_size m |}.

Definition set_blocked (b : gset Z) (m : Manager) : Manager :=
  {| curr_thread_id := curr_thread_id m; threads := threads m; readyQueue := readyQueue m;
     waiting_fot_mutex := waiting_fot_mutex m; available_ids := available_ids m;
     blocked := b; stack_size := stack_size m |}.

(** [*X.begin()] of an ordered set: its least element. *)
Definition set_begin (X : gset Z) : option Z :=
  match elements X with
  | [] => None
  | x :: l => Some (foldr Z.min x l)
  end.

(** The constructor: ids [1 .. max_threads-1] are free, the main thread is
    the running one. *)
Definition Manager_new (max_threads : Z) (stack_sz : Z) : Manager :=
  {| curr_thread_id := 0;
     threads := {[ 0 := Thread_main ]};
     readyQueue := [];
     waiting_fot_mutex := ∅;
     available_ids := list_to_set (seqZ 1 (max_threads - 1));
     blocked := ∅;
     stack_size := stack_sz |}.

Definition create_thread (entryPoint : EntryPoint) (m : Manager) : Z * Manager :=
  match set_begin (available_ids m) with
  | None => (FAILURE, m)
  | Some new_id =>
      let m := set_available_ids (available_ids m ∖ {[ new_id ]}) m in
      let m := set_threads (<[ new_id := Thread_spawned new_id (stack_size m) entryPoint ]> (threads m)) m in
      let m := set_readyQueue (readyQueue m ++ [new_id]) m in
      (new_id, m)
  end.

Definition contains (tid : Z) (m : Manager) : bool :=
  bool_decide (is_Some (threads m !! tid)).

Definition terminate (tid : Z) (m : Manager) : Manager :=
  let m := set_threads (delete tid (threads m)) m in
  let m := set_readyQueue (filter (λ x, x ≠ tid) (readyQueue m)) m in
  let m := set_waiting_fot_mutex (waiting_fot_mutex m ∖ {[ tid ]}) m in
  let m := set_blocked (blocked m ∖ {[ tid ]}) m in
  set_available_ids ({[ tid ]} ∪ available_ids m) m.

Definition set_as_ready (tid : Z) (m : Manager) : Manager :=
  if bool_decide (curr_thread_id m ≠ tid)
     && bool_decide (tid ∉ readyQueue m)
     && bool_decide (tid ∉ waiting_fot_mutex m)
     && bool_decide (tid ∉ blocked m)
  then set_readyQueue (readyQueue m ++ [tid]) m
  else m.

Definition get_curr_id (m : Manager) : Z := curr_thread_id m.

Definition wait_for_mutex (tid : Z) (m : Manager) : Manager :=
  set_waiting_fot_mutex ({[ tid ]} ∪ waiting_fot_mutex m) m.

(** [X.erase(X.begin())], used where [X] is known to be non-empty. *)
Definition erase_begin (X : gset Z) : gset Z :=
  match set_begin X with
  | Some x => X ∖ {[ x ]}
  | None => X
  end.

Definition advance_mutex_line (m : Manager) : Manager :=
  if bool_decide (waiting_fot_mutex m = ∅) then m
  else
    let waiting_not_blocked := waiting_fot_mutex m ∖ blocked m in
    match set_begin waiting_not_blocked with
    | Some tid =>
        let m := set_readyQueue (readyQueue m ++ [tid]) m in
        set_waiting_fot_mutex (waiting_fot_mutex m ∖ {[ tid ]}) m
    | None => set_waiting_fot_mutex (erase_begin (waiting_fot_mutex m)) m
    end.

Definition resume (tid : Z) (m : Manager) : Z * Manager :=
  if contains tid m
  then (SUCCESS, set_as_ready tid (set_blocked (blocked m ∖ {[ tid ]}) m))
  else (FAILURE, m).

(** [front()] and [pop_front()] need a non-empty list. *)
Definition set_next_thread_as_running (m : Manager) : option Manager :=
  match readyQueue m with
  | [] => None
  | id_next :: rest => Some (set_curr_thread_id id_next (set_readyQueue rest m))
  end.

(** [threads[tid]]: [operator[]] of [std::map] inserts a default-constructed
    [Thread()] when the key is absent. *)
Definition get_thread (tid : Z) (m : Manager) : Thread * Manager :=
  match threads m !! tid with
  | Some t => (t, m)
  | None => (Thread_main, set_threads (<[ tid := Thread_main ]> (threads m)) m)
  end.

Definition get_current_thread (m : Manager) : Thread * Manager :=
  get_thread (curr_thread_id m) m.

(** An assignment through the reference [threads[tid]]. *)
Definition update_thread (tid : Z) (f : Thread → Thread) (m : Manager) : Manager :=
  let '(t, m) := get_thread tid m in
  set_threads (<[ tid := f t ]> (threads m)) m.

Definition is_someone_waiting (m : Manager) : bool :=
  match readyQueue m with [] => false | _ => true end.

Definition block (tid : Z) (m : Manager) : Manager :=
  let m := set_blocked ({[ tid ]} ∪ blocked m) m in
  set_readyQueue (filter (λ x, x ≠ tid) (readyQueue m)) m.

(** ** uthreads.cpp: the process state *)

Record Mutex : Type := {
  locked : bool;
  locking_thread : Z
}.

Inductive SigHow : Type := SIG_BLOCK | SIG_UNBLOCK.

(** The static variables of [uthreads.cpp], and the part of the process the
    library acts on: whether SIGVTALRM is blocked, and the calls of
    [sigprocmask] made so far (oldest first). *)
Record State : Type := {
  total_quantums : Z;
  timer : Z * Z;
  threadsCollectionManager : Manager;
  mutex : Mutex;
  sigmask : bool;
  sig_log : list SigHow
}.

Definition set_total_quantums (n : Z) (s : State) : State :=
  {| total_quantums := n; timer := timer s;
     threadsCollectionManager := threadsCollectionManager s;
     mutex := mutex s; sigmask := sigmask s; sig_log := sig_log s |}.

Definition set_itimerval (tv : Z * Z) (s : State) : State :=
  {| total_quantums := total_quantums s; timer := tv;
     threadsCollectionManager := threadsCollectionManager s;
     mutex := mutex s; sigmask := sigmask s; sig_log := sig_log s |}.

Definition set_manager (m : Manager) (s : State) : State :=
  {| total_quantums := total_quantums s; timer := timer s;
     threadsCollectionManager := m;
     mutex := mutex s; sigmask := sigmask s; sig_log := sig_log s |}.

Definition set_mutex (mu : Mutex) (s : State) : State :=
  {| total_quantums := total_quantums s; timer := timer s;
     threadsCollectionManager := threadsCollectionManager s;
     mutex := mu; sigmask := sigmask s; sig_log := sig_log s |}.

Definition set_sigmask (b : bool) (s : State) : State :=
  {| total_quantums := total_quantums s; timer := timer s;
     threadsCollectionManager := threadsCollectionManager s;
     mutex := mutex s; sigmask := b; sig_log := sig_log s |}.

Definition set_sig_log (l : list SigHow) (s : State) : State :=
  {| total_quantums := total_quantums s; timer := timer s;
     threadsCollectionManager := threadsCollectionManager s;
     mutex := mutex s; sigmask := sigmask s; sig_log := l |}.

Definition with_manager (f : Manager → Manager) (s : State) : State :=
  set_manager (f (threadsCollectionManager s)) s.

(** How a call of the library, or a run of the signal handler, ends.
    - [Returns v s]: it returned [v] to its caller, leaving state [s];
    - [Switched s]: the caller was suspended by a context switch, and [s] is
      the state in which the thread switched to runs user code again;
    - [Exits c]: the process ended with status [c];
    - [Undefined]: the execution left defined behaviour;
    - [OutOfFuel]: the bound on chained switches given to the model was too
      small (shown below never to happen with the bound used). *)
Inductive Outcome (A : Type) : Type :=
| Returns (v : A) (s : State)
| Switched (s : State)
| Exits (status : Z)
| Undefined
| OutOfFuel.

Arguments Returns {A} v s.
Arguments Switched {A} s.
Arguments Exits {A} status.
Arguments Undefined {A}.
Arguments OutOfFuel {A}.

(** ** uthreads.cpp: helper functions *)

Definition sigprocmask (how : SigHow) (s : State) : State :=
  let s := set_sig_log (sig_log s ++ [how]) s in
  match how with
  | SIG_BLOCK => set_sigmask true s
  | SIG_UNBLOCK => set_sigmask false s
  end.

Definition mask_time_signal (how : SigHow) (s : State) : State :=
  sigprocmask how s.

Arguments sigprocmask : simpl never.
Arguments mask_time_signal : simpl never.

Definition init_timer (usecs : Z) (s : State) : State :=
  set_itimerval (Z.quot usecs 1000000, Z.rem usecs 1000000) s.

(** [setitimer] restarts the count-down of the virtual timer; elapsed time
    is not part of the state. *)
Definition set_timer (s : State) : State := s.

(** The closure [delete_thread] of [uthread_terminate]. *)
Definition delete_thread (tid : Z) (s : State) : State :=
  let s := with_manager (terminate tid) s in
  if bool_decide (locking_thread (mutex s) = tid)
  then
    let s := set_mutex {| locked := false; locking_thread := -1 |} s in
    with_manager advance_mutex_line s
  else s.

(** [switch_threads] up to, and not including, its final [siglongjmp]:
    count the quantum, save the context of the running thread ([site] is the
    place [switch_threads] was called from, where [sigsetjmp] will return
    [1]), make the front of the ready queue the running thread, run the
    action on the previous thread, count the quantum of the new one. *)
Definition switch_threads_body (site : ProgramPoint) (handle_curr_thread : State → State)
    (s : State) : option State :=
  let s := set_total_quantums (size_t_incr (total_quantums s)) s in
  let here := {| jmp_pc := site; saved_mask := sigmask s |} in
  let s := with_manager (λ m, update_thread (curr_thread_id m) (set_env here) m) s in
  match set_next_thread_as_running (threadsCollectionManager s) with
  | None => None
  | Some m =>
      let s := set_manager m s in
      let s := handle_curr_thread s in
      Some (with_manager (λ m, update_thread (curr_thread_id m) incr_quantums m) s)
  end.

(** The end of [uthread_mutex_lock] once the mutex is seen unlocked. *)
Definition take_mutex (s : State) : State :=
  let s := set_mutex {| locked := true;
                        locking_thread := get_curr_id (threadsCollectionManager s) |} s in
  mask_time_signal SIG_UNBLOCK s.

(** [siglongjmp(get_current_thread().env, 1)]: restore the saved mask and
    continue the running thread where its context was captured, up to the
    point where it is back in user code. A thread captured in the loop of
    [uthread_mutex_lock] tests the mutex again and may switch once more;
    [fuel] bounds the number of such further switches, each of which takes
    a thread out of the ready queue. *)
Fixpoint siglongjmp {A : Type} (fuel : nat) (s : State) : Outcome A :=
  let '(t, m) := get_current_thread (threadsCollectionManager s) in
  let s := set_sigmask (saved_mask (env t)) (set_manager m s) in
  match jmp_pc (env t) with
  | NoContext => Undefined
  | ThreadEntry _ => Switched s
  | InTimeSigHandler =>
      (* the handler returns; the mask of the interrupted code, in which
         SIGVTALRM was not blocked, is put back *)
      Switched (set_sigmask false s)
  | InTerminate tid =>
      Switched (mask_time_signal SIG_UNBLOCK (delete_thread tid s))
  | InBlock => Switched (mask_time_signal SIG_UNBLOCK s)
  | InMutexLock =>
      if locked (mutex s) then
        match fuel with
        | O => OutOfFuel
        | S fuel' =>
            let tid := get_curr_id (threadsCollectionManager s) in
            match switch_threads_body InMutexLock (with_manager (wait_for_mutex tid))
                    (set_timer s) with
            | None => Undefined
            | Some s' => siglongjmp fuel' s'
            end
        end
      else Switched (take_mutex s)
  end.

Definition switch_threads {A : Type} (site : ProgramPoint)
    (handle_curr_thread : State → State) (s : State) : Outcome A :=
  match switch_threads_body site handle_curr_thread s with
  | None => Undefined
  | Some s' => siglongjmp (S (length (readyQueue (threadsCollectionManager s')))) s'
  end.

Definition switch_threads_mid_quantum {A : Type} (site : ProgramPoint)
    (handle_curr_thread : State → State) (s : State) : Outcome A :=
  switch_threads site handle_curr_thread (set_timer s).

Definition time_sig_handler (s : State) : Outcome unit :=
  if negb (is_someone_waiting (threadsCollectionManager s)) then
    let s := set_total_quantums (size_t_incr (total_quantums s)) s in
    Returns tt (with_manager (λ m, update_thread (curr_thread_id m) incr_quantums m) s)
  else
    let curr_id := get_curr_id (threadsCollectionManager s) in
    switch_threads InTimeSigHandler (with_manager (set_as_ready curr_id)) s.

(** ** uthreads.cpp: the public functions *)

Definition uthread_init (quantum_usecs : Z) (s : State) : Outcome Z :=
  if quantum_usecs <=? 0 then Returns FAILURE s
  else
    let s := init_timer quantum_usecs s in
    let s := set_total_quantums (size_t_incr (total_quantums s)) s in
    Returns SUCCESS (set_timer s).

Definition uthread_spawn (f : EntryPoint) (s : State) : Outcome Z :=
  let '(new_id, m) := create_thread f (threadsCollectionManager s) in
  Returns new_id (set_manager m s).

Definition uthread_terminate (tid : Z) (s : State) : Outcome Z :=
  let s := mask_time_signal SIG_BLOCK s in
  if bool_decide (tid = 0) then Exits EXIT_SUCCESS
  else if negb (contains tid (threadsCollectionManager s)) then
    Returns FAILURE (sigprocmask SIG_UNBLOCK s)
  else if bool_decide (tid = get_curr_id (threadsCollectionManager s)) then
    switch_threads_mid_quantum (InTerminate tid) (delete_thread tid) s
  else
    let s := delete_thread tid s in
    Returns SUCCESS (mask_time_signal SIG_UNBLOCK s).

Definition uthread_block (tid : Z) (s : State) : Outcome Z :=
  let s := mask_time_signal SIG_BLOCK s in
  if bool_decide (tid = 0) || negb (contains tid (threadsCollectionManager s)) then
    Returns FAILURE (mask_time_signal SIG_UNBLOCK s)
  else if bool_decide (get_curr_id (threadsCollectionManager s) = tid) then
    switch_threads_mid_quantum InBlock (with_manager (block tid)) s
  else
    let s := with_manager (block tid) s in
    Returns SUCCESS (mask_time_signal SIG_UNBLOCK s).

Definition uthread_resume (tid : Z) (s : State) : Outcome Z :=
  let s := mask_time_signal SIG_BLOCK s in
  let '(success, m) := resume tid (threadsCollectionManager s) in
  let s := set_manager m s in
  Returns success (mask_time_signal SIG_UNBLOCK s).

Definition uthread_mutex_lock (s : State) : Outcome Z :=
  let s := mask_time_signal SIG_BLOCK s in
  if bool_decide (locking_thread (mutex s) = get_curr_id (threadsCollectionManager s)) then
    Returns FAILURE (mask_time_signal SIG_UNBLOCK s)
  else if locked (mutex s) then
    let tid := get_curr_id (threadsCollectionManager s) in
    switch_threads_mid_quantum InMutexLock (with_manager (wait_for_mutex tid)) s
  else Returns SUCCESS (take_mutex s).

Definition uthread_mutex_unlock (s : State) : Outcome Z :=
  let s := mask_time_signal SIG_BLOCK s in
  if negb (locked (mutex s))
     || bool_decide (locking_thread (mutex s) ≠ get_curr_id (threadsCollectionManager s)) then
    Returns FAILURE (mask_time_signal SIG_UNBLOCK s)
  else
    let s := set_mutex {| locked := false; locking_thread := -1 |} s in
    let s := with_manager advance_mutex_line s in
    Returns SUCCESS (mask_time_signal SIG_UNBLOCK s).

Definition uthread_get_tid (s : State) : Outcome Z :=
  Returns (get_curr_id (threadsCollectionManager s)) s.

Definition uthread_get_total_quantums (s : State) : Outcome Z :=
  Returns (int_of_size_t (total_quantums s)) s.

Definition uthread_get_quantums (tid : Z) (s : State) : Outcome Z :=
  let s := mask_time_signal SIG_BLOCK s in
  if negb (contains tid (threadsCollectionManager s)) then Returns FAILURE s
  else
    let '(t, m) := get_thread tid (threadsCollectionManager s) in
    let s := set_manager m s in
    Returns (int_of_size_t (quantums t)) (mask_time_signal SIG_UNBLOCK s).

(** ** Runs of the library *)

(** The kernel delivers SIGVTALRM with the signal blocked for the duration of
    the handler, and puts the interrupted mask back when the handler
    returns. *)
Definition deliver_SIGVTALRM (s : State) : Outcome unit :=
  match time_sig_handler (set_sigmask true s) with
  | Returns v s' => Returns v (set_sigmask false s')
  | o => o
  end.

(** What the running thread, or the timer, does next. *)
Inductive Event : Type :=
| Spawn (f : EntryPoint)
| Terminate (tid : Z)
| Block (tid : Z)
| Resume (tid : Z)
| MutexLock
| MutexUnlock
| GetTid
| GetTotalQuantums
| GetQuantums (tid : Z)
| TimerTick.

(** The state in which user code runs next, if the process goes on. *)
Definition steady {A : Type} (o : Outcome A) : option State :=
  match o with
  | Returns _ s => Some s
  | Switched s => Some s
  | _ => None
  end.

(** One event, run to the next point at which user code runs. A timer tick
    is delivered only while SIGVTALRM is not blocked. *)
Definition perform (e : Event) (s : State) : option State :=
  match e with
  | Spawn f => steady (uthread_spawn f s)
  | Terminate tid => steady (uthread_terminate tid s)
  | Block tid => steady (uthread_block tid s)
  | Resume tid => steady (uthread_resume tid s)
  | MutexLock => steady (uthread_mutex_lock s)
  | MutexUnlock => steady (uthread_mutex_unlock s)
  | GetTid => steady (uthread_get_tid s)
  | GetTotalQuantums => steady (uthread_get_total_quantums s)
  | GetQuantums tid => steady (uthread_get_quantums tid s)
  | TimerTick => if sigmask s then None else steady (deliver_SIGVTALRM s)
  end.

Fixpoint run (es : list Event) (s : State) : option State :=
  match es with
  | [] => Some s
  | e :: es' =>
      match perform e s with
      | Some s' => run es' s'
      | None => None
      end
  end.

(** The state of the static variables before [main] starts: the manager is
    constructed with [MAX_THREAD_NUM] and [STACK_SIZE], two constants of
    [uthreads.h]. *)
Definition static_state (MAX_THREAD_NUM STACK_SIZE : Z) : State :=
  {| total_quantums := 0;
     timer := (0, 0);
     threadsCollectionManager := Manager_new MAX_THREAD_NUM STACK_SIZE;
     mutex := {| locked := false; locking_thread := -1 |};
     sigmask := false;
     sig_log := [] |}.

(** A program calls [uthread_init] once, first, and goes on if it
    succeeded. *)
Definition boot (MAX_THREAD_NUM STACK_SIZE quantum_usecs : Z) (es : list Event) : option State :=
  match uthread_init quantum_usecs (static_state MAX_THREAD_NUM STACK_SIZE) with
  | Returns 0 s => run es s
  | _ => None
  end.

Inductive reachable_by (allowed : Event → Prop) (MAX_THREAD_NUM STACK_SIZE : Z) : State → Prop :=
| reachable_init quantum_usecs s :
    uthread_init quantum_usecs (static_state MAX_THREAD_NUM STACK_SIZE) = Returns SUCCESS s →
    reachable_by allowed MAX_THREAD_NUM STACK_SIZE s
| reachable_step e s s' :
    reachable_by allowed MAX_THREAD_NUM STACK_SIZE s →
    allowed e →
    perform e s = Some s' →
    reachable_by allowed MAX_THREAD_NUM STACK_SIZE s'.

Definition reachable : Z → Z → State → Prop := reachable_by (λ _, True).


(** * Definitions used in the statements and proofs *)

(** ** Consistency of the collection *)

(** [wf_with L m]: the collection [m] is consistent, the ids of [L] being
    live threads that are, for the time of a context switch, in none of the
    ready queue, the blocked set and the mutex line and not running. *)
Record wf_with (L : gset Z) (m : Manager) : Prop := {
  wf_curr : curr_thread_id m ∈ dom (threads m);
  wf_nodup : NoDup (readyQueue m);
  wf_ready : ∀ x, x ∈ readyQueue m →
    x ∈ dom (threads m) ∧ x ≠ curr_thread_id m ∧ (x ∉ blocked m) ∧
    (x ∉ waiting_fot_mutex m) ∧ (x ∉ L);
  wf_curr_out :
    (curr_thread_id m ∉ blocked m) ∧ (curr_thread_id m ∉ waiting_fot_mutex m) ∧
    (curr_thread_id m ∉ L);
  wf_sub : blocked m ∪ waiting_fot_mutex m ∪ L ⊆ dom (threads m);
  wf_limbo : L ## blocked m ∪ waiting_fot_mutex m;
  wf_cover : ∀ x, x ∈ dom (threads m) →
    x = curr_thread_id m ∨ x ∈ readyQueue m ∨ x ∈ blocked m ∨
    x ∈ waiting_fot_mutex m ∨ x ∈ L;
  wf_free : available_ids m ## dom (threads m)
}.

Definition wf : Manager → Prop := wf_with ∅.

Ltac wf_intro H :=
  destruct H as [Hcur Hnd Hrdy Hout Hsub Hlim Hcov Hfree].

(** [set_solver] without the quantified facts, which it does not need once
    they have been instantiated. *)
Ltac ss :=
  repeat match goal with H : ∀ x : Z, _ |- _ => clear H end;
  repeat match goal with H : NoDup _ |- _ => clear H end;
  set_solver.

Ltac wf_fields := split; simpl; rewrite ?dom_insert_L, ?dom_delete_L.

(** Membership facts of a ready-queue element, as hypotheses. *)
Ltac use_ready Hrdy x Hx :=
  let H1 := fresh in let H2 := fresh in let H3 := fresh in
  let H4 := fresh in let H5 := fresh in
  destruct (Hrdy x Hx) as (H1 & H2 & H3 & H4 & H5).

(** What holds of the record of a thread [i] that is not in the middle of
    being switched away from: its context was not captured in
    [uthread_terminate]; if it is still the one planted by the constructor,
    its saved mask is empty and, unless [i] is running, its counter is 0. *)
Definition thread_ok (m : Manager) (i : Z) (t : Thread) : Prop :=
  (∀ x, jmp_pc (env t) ≠ InTerminate x) ∧
  (∀ f, jmp_pc (env t) = ThreadEntry f →
        saved_mask (env t) = false ∧ (i ≠ curr_thread_id m → quantums t = 0)).

Definition threads_ok (L : gset Z) (m : Manager) : Prop :=
  ∀ i t, threads m !! i = Some t → i ∉ L → thread_ok m i t.

Definition inv (m : Manager) : Prop := wf m ∧ threads_ok ∅ m.

(** The state handed to the action of a context switch away from [c], whose
    context was captured at [site]. *)
Definition inv_mid (site : ProgramPoint) (c : Z) (m : Manager) : Prop :=
  wf_with {[ c ]} m ∧ threads_ok {[ c ]} m ∧
  ∃ t, threads m !! c = Some t ∧ jmp_pc (env t) = site.

Definition Inv (s : State) : Prop := inv (threadsCollectionManager s).

(** ** Predicates of the statements *)

(** The parts of the state other than the signal mask: what a thread of the
    program can observe through the library. *)
Definition same_library_state (s s' : State) : Prop :=
  threadsCollectionManager s' = threadsCollectionManager s ∧
  mutex s' = mutex s ∧
  total_quantums s' = total_quantums s.

Definition unlocked : Mutex := {| locked := false; locking_thread := -1 |}.

(** The collection from which the action of a context switch away from the
    running thread starts: the context is saved and the front of the ready
    queue is running. *)
Definition after_pick (site : ProgramPoint) (b : bool) (next : Z) (rest : list Z)
    (m : Manager) : Manager :=
  set_curr_thread_id next
    (set_readyQueue rest
       (update_thread (curr_thread_id m) (set_env {| jmp_pc := site; saved_mask := b |}) m)).




(** The call blocked SIGVTALRM first and unblocked it last. *)
Definition bracketed (s s' : State) : Prop :=
  (∃ mid, sig_log s' = sig_log s ++ SIG_BLOCK :: mid ++ [SIG_UNBLOCK]) ∧
  sigmask s' = false.

(** The call made no call of [sigprocmask]. *)
Definition mask_untouched (s s' : State) : Prop :=
  sig_log s' = sig_log s ∧ sigmask s' = sigmask s.

(** The thread [tid], if it exists, still has the context planted by its
    constructor, and its counter is [n]. *)
Definition new_thread (tid : Z) (n : Z) (m : Manager) : Prop :=
  ∀ t, threads m !! tid = Some t → (∃ f, jmp_pc (env t) = ThreadEntry f) ∧ quantums t = n.

(** The thread [tid], if it exists, has not been switched away from: its
    counter is 0, or 1 if it is the running thread. *)
Definition unstarted (tid : Z) (m : Manager) : Prop :=
  new_thread tid (if bool_decide (curr_thread_id m = tid) then 1 else 0) m.

(** A run during which [tid] is never the running thread when user code
    runs. *)
Inductive never_runs (tid : Z) (s : State) : State → Prop :=
| never_runs_refl : never_runs tid s s
| never_runs_step e s1 s2 :
    never_runs tid s s1 →
    perform e s1 = Some s2 →
    curr_thread_id (threadsCollectionManager s2) ≠ tid →
    never_runs tid s s2.

(** ** Concrete states and runs *)

Definition line_demo (w b : gset Z) : Manager :=
  set_blocked b (set_waiting_fot_mutex w (set_readyQueue [5] (Manager_new 8 4096))).

Definition line_empty : Manager := line_demo ∅ {[ 2 ]}.
Definition line_mixed : Manager := line_demo {[ 4; 2; 3 ]} {[ 2 ]}.
Definition line_all_blocked : Manager := line_demo {[ 4; 2 ]} {[ 2; 4; 6 ]}.

Definition mutex_held_by_main : State :=
  set_mutex {| locked := true; locking_thread := 0 |} (static_state 8 4096).

Definition state_after (M S q : Z) (es : list Event) : State :=
  default (static_state M S) (boot M S q es).

(** Main spawns thread 1 and takes the mutex; at the next tick thread 1 runs,
    asks for the mutex and is put in the mutex line; main runs again and
    blocks thread 1. *)
Definition blocked_waiter_run : list Event :=
  [Spawn 7; MutexLock; TimerTick; MutexLock; Block 1].

Definition blocked_waiter_state : State := state_after 100 4096 100000 blocked_waiter_run.

(** Three threads are spawned after [uthread_init]. *)
Definition three_spawned : State := state_after 100 4096 100000 [Spawn 7; Spawn 8; Spawn 9].

Definition just_initialised : State := state_after 100 4096 100000 [].
Definition one_spawned : State := state_after 100 4096 100000 [Spawn 7].

(** Main has taken the mutex. *)
Definition main_holds : State := state_after 100 4096 100000 [MutexLock].

(** Thread 1 holds the mutex and is running, threads 2 and 0 are ready. *)
Definition holder_running : State :=
  state_after 100 4096 100000 [Spawn 7; Spawn 8; TimerTick; MutexLock].

(** Thread 1 holds the mutex, main is running, threads 1 and 2 are ready. *)
Definition holder_ready : State :=
  state_after 100 4096 100000 [Spawn 7; Spawn 8; TimerTick; MutexLock; TimerTick; TimerTick].


(** Main spawns thread 1; at the first tick thread 1 runs; it then
    terminates itself and main runs again. *)
Definition self_terminate_run : list Event := [Spawn 7; TimerTick; Terminate 1].

Fixpoint run_avoiding (tid : Z) (es : list Event) (s : State) : option State :=
  match es with
  | [] => Some s
  | e :: es' =>
      match perform e s with
      | Some s' =>
          if bool_decide (curr_thread_id (threadsCollectionManager s') ≠ tid)
          then run_avoiding tid es' s'
          else None
      | None => None
      end
  end.

(** After thread 1 has been spawned, main takes the mutex, blocks thread 1,
    runs through a timer tick and releases the mutex. *)
Definition unscheduled_state : State :=
  default one_spawned (run_avoiding 1 [MutexLock; Block 1; TimerTick; MutexUnlock] one_spawned).

(** The running thread after each event of a run. *)
Fixpoint running_ids (es : list Event) (s : State) : list Z :=
  match es with
  | [] => []
  | e :: es' =>
      match perform e s with
      | Some s' => curr_thread_id (threadsCollectionManager s') :: running_ids es' s'
      | None => []
      end
  end.

Definition get_quantums_after (es : list Event) (tid : Z) : option Z :=
  match uthread_get_quantums tid (state_after 100 4096 100000 es) with
  | Returns v _ => Some v
  | _ => None
  end.

(** ** Further invariants of reachable states *)

(** The ids the library hands out: [0] for main and [1 .. MAX_THREAD_NUM-1]. *)
Definition id_pool (MAX_THREAD_NUM : Z) : gset Z :=
  {[ 0 ]} ∪ list_to_set (seqZ 1 (MAX_THREAD_NUM - 1)).

(** Every id of the pool is either live or free. *)
Definition ids_partitioned (MAX_THREAD_NUM : Z) (m : Manager) (mu : Mutex) : Prop :=
  dom (threads m) ∪ available_ids m = id_pool MAX_THREAD_NUM.

(** The main thread exists and is not blocked. *)
Definition main_thread_kept (m : Manager) (mu : Mutex) : Prop :=
  0 ∈ dom (threads m) ∧ 0 ∉ blocked m.

(** An unlocked mutex has holder -1; a locked one is held by a live thread. *)
Definition mutex_consistent (m : Manager) (mu : Mutex) : Prop :=
  (locked mu = false → locking_thread mu = -1) ∧
  (locked mu = true → locking_thread mu ∈ dom (threads m)).


(** No quantum is counted between [s] and [s']: the total, the running
    thread and the record of every thread are the same, apart from threads
    that are gone and records that start with counter 0. *)
Definition no_quantum_counted (s s' : State) : Prop :=
  total_quantums s' = total_quantums s ∧
  curr_thread_id (threadsCollectionManager s') = curr_thread_id (threadsCollectionManager s) ∧
  ∀ i t', threads (threadsCollectionManager s') !! i = Some t' →
          threads (threadsCollectionManager s) !! i = Some t' ∨ quantums t' = 0.



(** ** Further concrete states *)


(** Thread 1 runs and holds the mutex, main waits for it: nobody is ready. *)
Definition holder_alone : State :=
  state_after 100 4096 100000 [Spawn 7; TimerTick; MutexLock; TimerTick; MutexLock].

(** Main runs, thread 1 holds the mutex and is blocked: nobody is ready. *)
Definition holder_blocked : State :=
  state_after 100 4096 100000 [Spawn 7; TimerTick; MutexLock; TimerTick; Block 1].

(** Main runs, threads 1 and 2 are ready and have not run yet. *)
Definition two_ready : State := state_after 100 4096 100000 [Spawn 7; Spawn 8].

(** * Properties *)

(** ** The least element of an ordered set *)

Lemma foldr_min_elem (x : Z) (l : list Z) : foldr Z.min x l ∈ x :: l.
Proof.
  induction l as [|y l IH]; simpl.
  - apply elem_of_cons; by left.
  - destruct (Z.min_spec y (foldr Z.min x l)) as [[_ ->]|[_ ->]].
    + apply elem_of_cons; right. apply elem_of_cons; by left.
    + apply elem_of_cons in IH as [IH|IH].
      * rewrite IH. apply elem_of_cons; by left.
      * apply elem_of_cons; right. apply elem_of_cons; by right.
Qed.

Lemma foldr_min_le (x : Z) (l : list Z) (y : Z) : y ∈ x :: l → foldr Z.min x l ≤ y.
Proof.
  induction l as [|z l IH]; simpl; intros Hy.
  - apply elem_of_cons in Hy as [->|Hy]; [lia|]. by apply elem_of_nil in Hy.
  - apply elem_of_cons in Hy as [->|Hy].
    + etrans; [apply Z.le_min_r|]. apply IH, elem_of_cons; by left.
    + apply elem_of_cons in Hy as [->|Hy]; [apply Z.le_min_l|].
      etrans; [apply Z.le_min_r|]. apply IH, elem_of_cons; by right.
Qed.

Lemma set_begin_None (X : gset Z) : set_begin X = None ↔ X = ∅.
Proof.
  unfold set_begin. split.
  - destruct (elements X) eqn:E; [|done]. intros _.
    by apply leibniz_equiv, elements_empty_inv.
  - intros ->. by rewrite elements_empty.
Qed.

Lemma set_begin_Some (X : gset Z) (x : Z) :
  set_begin X = Some x ↔ x ∈ X ∧ ∀ y, y ∈ X → x ≤ y.
Proof.
  unfold set_begin. split.
  - destruct (elements X) as [|z l] eqn:E; [done|]. intros [= <-]. split.
    + apply elem_of_elements. rewrite E. apply foldr_min_elem.
    + intros y Hy. apply foldr_min_le. rewrite <- E. by apply elem_of_elements.
  - intros [Hx Hmin]. destruct (elements X) as [|z l] eqn:E.
    + apply elem_of_elements in Hx. rewrite E in Hx. by apply elem_of_nil in Hx.
    + f_equal. apply Z.le_antisymm.
      * apply foldr_min_le. rewrite <- E. by apply elem_of_elements.
      * apply Hmin, elem_of_elements. rewrite E. apply foldr_min_elem.
Qed.

Lemma set_begin_is_Some (X : gset Z) : X ≠ ∅ → is_Some (set_begin X).
Proof.
  intros HX. destruct (set_begin X) eqn:E; [by eexists|].
  by apply set_begin_None in E.
Qed.

(** ** Well-formed collections *)

Lemma wf_Manager_new (max_threads stack_sz : Z) : wf (Manager_new max_threads stack_sz).
Proof.
  split; simpl.
  - set_solver.
  - constructor.
  - intros x Hx. by apply elem_of_nil in Hx.
  - set_solver.
  - set_solver.
  - set_solver.
  - intros x. rewrite dom_singleton_L. set_solver.
  - rewrite dom_singleton_L. intros x Hx Hx'.
    apply elem_of_list_to_set, elem_of_seqZ in Hx. set_solver by lia.
Qed.

Lemma NoDup_snoc_fresh (l : list Z) (x : Z) : NoDup l → x ∉ l → NoDup (l ++ [x]).
Proof.
  intros Hl Hx. apply NoDup_app. split; [done|]. split.
  - intros y Hy Hy'. apply elem_of_cons in Hy' as [->|Hy']; [done|].
    by apply elem_of_nil in Hy'.
  - apply NoDup_singleton.
Qed.

Lemma wf_create_thread (f : EntryPoint) (m m' : Manager) (new_id : Z) :
  wf m → create_thread f m = (new_id, m') → wf m'.
Proof.
  intros Hwf Hc. unfold create_thread in Hc.
  destruct (set_begin (available_ids m)) as [i|] eqn:E;
    injection Hc as <- <-; [|done].
  wf_intro Hwf. apply set_begin_Some in E as [Hi _].
  assert (i ∉ dom (threads m)) as Hid by ss.
  assert (i ∉ readyQueue m) as Hir by (intros Hx; use_ready Hrdy i Hx; done).
  wf_fields.
  - ss.
  - by apply NoDup_snoc_fresh.
  - intros x [Hx| ->%list_elem_of_singleton]%elem_of_app.
    + use_ready Hrdy x Hx. ss.
    + ss.
  - ss.
  - ss.
  - ss.
  - intros x [->%elem_of_singleton|Hx]%elem_of_union.
    + right; left. apply elem_of_app; right. by apply list_elem_of_singleton.
    + destruct (Hcov x Hx) as [?|[?|?]]; [by left| |by right; right].
      right; left. apply elem_of_app; by left.
  - ss.
Qed.

Lemma wf_terminate (L : gset Z) (tid : Z) (m : Manager) :
  wf_with L m → tid ≠ curr_thread_id m → wf_with (L ∖ {[ tid ]}) (terminate tid m).
Proof.
  intros Hwf Hne. wf_intro Hwf. wf_fields.
  - ss.
  - by apply NoDup_filter.
  - intros x [? Hx]%list_elem_of_filter. use_ready Hrdy x Hx. ss.
  - ss.
  - ss.
  - ss.
  - intros x [Hx Hxt%not_elem_of_singleton]%elem_of_difference.
    rewrite list_elem_of_filter.
    destruct (Hcov x Hx) as [?|[?|[?|[?|?]]]]; ss.
  - ss.
Qed.

Lemma wf_push_limbo (c : Z) (m : Manager) :
  wf_with {[ c ]} m → wf (set_readyQueue (readyQueue m ++ [c]) m).
Proof.
  intros Hwf. wf_intro Hwf.
  assert (c ∉ readyQueue m) as Hcr.
  { intros Hx. use_ready Hrdy c Hx. ss. }
  wf_fields.
  - done.
  - by apply NoDup_snoc_fresh.
  - intros x [Hx| ->%list_elem_of_singleton]%elem_of_app.
    + use_ready Hrdy x Hx. ss.
    + ss.
  - ss.
  - ss.
  - ss.
  - intros x Hx. rewrite elem_of_app, list_elem_of_singleton.
    destruct (Hcov x Hx) as [?|[?|[?|[?|?]]]]; ss.
  - done.
Qed.

Lemma wf_set_as_ready_limbo (c : Z) (m : Manager) :
  wf_with {[ c ]} m → wf (set_as_ready c m).
Proof.
  intros Hwf. unfold set_as_ready.
  assert (c ∉ readyQueue m) as Hcr.
  { wf_intro Hwf. intros Hx. use_ready Hrdy c Hx. ss. }
  rewrite !bool_decide_eq_true_2; [by apply wf_push_limbo|..];
    wf_intro Hwf; ss.
Qed.

Lemma set_as_ready_live (tid : Z) (m : Manager) :
  wf m → tid ∈ dom (threads m) → set_as_ready tid m = m.
Proof.
  intros Hwf Hin. unfold set_as_ready. case_match eqn:E; [|done].
  repeat (apply andb_prop in E as [E ?]).
  repeat match goal with H : bool_decide _ = true |- _ => apply bool_decide_eq_true in H end.
  wf_intro Hwf. destruct (Hcov tid Hin) as [?|[?|[?|[?|?]]]]; ss.
Qed.

Lemma wf_block_limbo (c : Z) (m : Manager) :
  wf_with {[ c ]} m → wf (block c m).
Proof.
  intros Hwf. wf_intro Hwf. wf_fields.
  - done.
  - by apply NoDup_filter.
  - intros x [? Hx]%list_elem_of_filter. use_ready Hrdy x Hx. ss.
  - ss.
  - ss.
  - ss.
  - intros x Hx. rewrite list_elem_of_filter.
    destruct (Hcov x Hx) as [?|[Hr|[?|[?|?]]]]; [by left| |ss..].
    right; left. split; [|done]. intros ->. use_ready Hrdy c Hr. ss.
  - done.
Qed.

Lemma wf_block (tid : Z) (m : Manager) :
  wf m → tid ∈ dom (threads m) → tid ≠ curr_thread_id m → wf (block tid m).
Proof.
  intros Hwf Hin Hne. wf_intro Hwf. wf_fields.
  - done.
  - by apply NoDup_filter.
  - intros x [? Hx]%list_elem_of_filter. use_ready Hrdy x Hx. ss.
  - ss.
  - ss.
  - ss.
  - intros x Hx. rewrite list_elem_of_filter.
    destruct (decide (x = tid)) as [->|]; [ss|].
    destruct (Hcov x Hx) as [?|[?|[?|[?|?]]]]; ss.
  - done.
Qed.

Lemma wf_wait_for_mutex_limbo (c : Z) (m : Manager) :
  wf_with {[ c ]} m → wf (wait_for_mutex c m).
Proof.
  intros Hwf. wf_intro Hwf. wf_fields.
  - done.
  - done.
  - intros x Hx. use_ready Hrdy x Hx. ss.
  - ss.
  - ss.
  - ss.
  - intros x Hx. destruct (Hcov x Hx) as [?|[?|[?|[?|?]]]]; ss.
  - done.
Qed.

Lemma wf_advance_mutex_line (m : Manager) : wf m → wf (advance_mutex_line m).
Proof.
  intros Hwf. unfold advance_mutex_line. case_bool_decide as Hw; [done|].
  wf_intro Hwf.
  destruct (set_begin (waiting_fot_mutex m ∖ blocked m)) as [i|] eqn:E.
  - apply set_begin_Some in E as [[Hi Hib]%elem_of_difference _].
    assert (i ∉ readyQueue m) as Hir by (intros Hx; use_ready Hrdy i Hx; done).
    wf_fields.
    + done.
    + by apply NoDup_snoc_fresh.
    + intros x [Hx| ->%list_elem_of_singleton]%elem_of_app.
      * use_ready Hrdy x Hx. ss.
      * ss.
    + ss.
    + ss.
    + ss.
    + intros x Hx. rewrite elem_of_app, list_elem_of_singleton.
      destruct (decide (x = i)) as [->|]; [tauto|].
      destruct (Hcov x Hx) as [?|[?|[?|[?|?]]]]; ss.
    + done.
  - apply set_begin_None in E. unfold erase_begin.
    destruct (set_begin (waiting_fot_mutex m)) as [j|] eqn:E'; [|by split].
    apply set_begin_Some in E' as [Hj _].
    assert (j ∈ blocked m) as Hjb by ss. clear E.
    wf_fields.
    + done.
    + done.
    + intros x Hx. use_ready Hrdy x Hx. ss.
    + ss.
    + ss.
    + ss.
    + intros x Hx. destruct (decide (x = j)) as [->|]; [tauto|].
      destruct (Hcov x Hx) as [?|[?|[?|[?|?]]]]; ss.
    + done.
Qed.

Lemma wf_erase_blocked (tid : Z) (m : Manager) :
  wf m →
  wf (set_blocked (blocked m ∖ {[ tid ]}) m) ∨
  (tid ∈ blocked m ∧ (tid ∉ waiting_fot_mutex m) ∧
   wf_with {[ tid ]} (set_blocked (blocked m ∖ {[ tid ]}) m)).
Proof.
  intros Hwf. wf_intro Hwf.
  destruct (decide (tid ∈ blocked m ∧ tid ∉ waiting_fot_mutex m)) as [[Hb Hnw]|Hn].
  - right. split; [done|]. split; [done|]. wf_fields.
    + done.
    + done.
    + intros x Hx. use_ready Hrdy x Hx. ss.
    + ss.
    + ss.
    + ss.
    + intros x Hx. destruct (decide (x = tid)) as [->|]; [ss|].
      destruct (Hcov x Hx) as [?|[?|[?|[?|?]]]]; ss.
    + done.
  - left. wf_fields.
    + done.
    + done.
    + intros x Hx. use_ready Hrdy x Hx. ss.
    + ss.
    + ss.
    + ss.
    + intros x Hx. destruct (decide (x = tid)) as [->|].
      * destruct (Hcov tid Hx) as [?|[?|[?|[?|?]]]]; try tauto.
        right; right; right; left. apply dec_stable. intros Hnw. apply Hn. done.
      * destruct (Hcov x Hx) as [?|[?|[?|[?|?]]]]; ss.
    + done.
Qed.

Lemma wf_resume (tid : Z) (m m' : Manager) (r : Z) :
  wf m → resume tid m = (r, m') → wf m'.
Proof.
  intros Hwf Hr. unfold resume, contains in Hr.
  case_bool_decide as Hc; injection Hr as <- <-; [|done].
  apply elem_of_dom in Hc.
  destruct (wf_erase_blocked tid m Hwf) as [Hw|(Hb & Hnw & Hw)].
  - by rewrite set_as_ready_live.
  - by apply wf_set_as_ready_limbo.
Qed.

Lemma wf_with_set_threads (L : gset Z) (ts : gmap Z Thread) (m : Manager) :
  dom ts = dom (threads m) → wf_with L m → wf_with L (set_threads ts m).
Proof. intros Hd Hwf. wf_intro Hwf. split; simpl; rewrite ?Hd; done. Qed.

Lemma get_thread_live (tid : Z) (m : Manager) (t : Thread) :
  threads m !! tid = Some t → get_thread tid m = (t, m).
Proof. intros H. unfold get_thread. by rewrite H. Qed.

Lemma update_thread_live (tid : Z) (f : Thread → Thread) (m : Manager) (t : Thread) :
  threads m !! tid = Some t →
  update_thread tid f m = set_threads (<[ tid := f t ]> (threads m)) m.
Proof. intros H. unfold update_thread. by rewrite (get_thread_live _ _ _ H). Qed.

Lemma wf_with_update_thread (L : gset Z) (tid : Z) (f : Thread → Thread) (m : Manager) :
  tid ∈ dom (threads m) → wf_with L m → wf_with L (update_thread tid f m).
Proof.
  intros [t Ht]%elem_of_dom Hwf. rewrite (update_thread_live _ _ _ _ Ht).
  apply wf_with_set_threads; [|done].
  rewrite dom_insert_L. apply elem_of_dom_2 in Ht. clear Hwf. set_solver.
Qed.

Lemma wf_set_next_thread_as_running (m m' : Manager) :
  wf m → set_next_thread_as_running m = Some m' →
  wf_with {[ curr_thread_id m ]} m' ∧ head (readyQueue m) = Some (curr_thread_id m') ∧
  threads m' = threads m.
Proof.
  intros Hwf Hn. wf_intro Hwf. unfold set_next_thread_as_running in Hn.
  destruct (readyQueue m) as [|n rest] eqn:E; [done|]. injection Hn as <-.
  split; [|done].
  apply NoDup_cons in Hnd as [Hn Hnd].
  assert (n ∈ n :: rest) as Hnn by (apply elem_of_cons; by left).
  use_ready Hrdy n Hnn.
  wf_fields.
  - done.
  - done.
  - intros x Hx. assert (x ≠ n) by (by intros ->).
    assert (x ∈ n :: rest) as Hx' by (apply elem_of_cons; by right).
    use_ready Hrdy x Hx'. ss.
  - ss.
  - ss.
  - ss.
  - intros x Hx.
    destruct (Hcov x Hx) as [?|[[?|?]%elem_of_cons|[?|[?|?]]]]; ss.
  - done.
Qed.

(** ** The invariant of reachable states *)

Lemma inv_Manager_new (max_threads stack_sz : Z) : inv (Manager_new max_threads stack_sz).
Proof.
  split; [apply wf_Manager_new|].
  intros i t Ht _. simpl in Ht. apply lookup_singleton_Some in Ht as [<- <-].
  split; [done|]. intros f Hf. done.
Qed.

Lemma inv_create_thread (f : EntryPoint) (m m' : Manager) (new_id : Z) :
  inv m → create_thread f m = (new_id, m') → inv m'.
Proof.
  intros [Hwf Hok] Hc. split; [by eapply wf_create_thread|].
  unfold create_thread in Hc.
  destruct (set_begin (available_ids m)) as [i|] eqn:E; injection Hc as <- <-; [|done].
  apply set_begin_Some in E as [Hi _].
  assert (i ≠ curr_thread_id m).
  { intros ->. destruct Hwf as [Hcur Hnd Hrdy Hout Hsub Hlim Hcov Hfree]. set_solver. }
  intros j t Ht _. simpl in Ht. apply lookup_insert_Some in Ht as [[<- <-]|[? Ht]].
  - split; [done|]. simpl. done.
  - by apply (Hok j t Ht).
Qed.

Lemma inv_mid_handler (g : Manager → Manager) (site : ProgramPoint) (c : Z) (m : Manager) :
  (∀ m, threads (g m) = threads m ∧ curr_thread_id (g m) = curr_thread_id m) →
  (∀ m, wf_with {[ c ]} m → wf (g m)) →
  (∀ x, site ≠ InTerminate x) → (∀ f, site ≠ ThreadEntry f) →
  inv_mid site c m → inv (g m).
Proof.
  intros Hg Hwf Hs1 Hs2 (Hw & Hok & t & Ht & Hpc). split; [by apply Hwf|].
  intros i t' Ht' _. destruct (Hg m) as [Hth Hc]. rewrite Hth in Ht'.
  destruct (decide (i = c)) as [->|Hne].
  - assert (t' = t) as -> by congruence.
    split; rewrite Hpc; [done|]. intros f Hf. by destruct (Hs2 f).
  - unfold thread_ok. rewrite Hc. apply (Hok i t' Ht'). set_solver.
Qed.

Lemma inv_advance_mutex_line (m : Manager) : inv m → inv (advance_mutex_line m).
Proof.
  intros [Hwf Hok]. split; [by apply wf_advance_mutex_line|].
  unfold advance_mutex_line. case_bool_decide; [done|]. by case_match.
Qed.

Lemma inv_terminate_limbo (c : Z) (m : Manager) (site : ProgramPoint) :
  inv_mid site c m → inv (terminate c m).
Proof.
  intros (Hw & Hok & _). split.
  - assert (c ≠ curr_thread_id m) by (destruct Hw as [Hcur Hnd Hrdy Hout Hsub Hlim Hcov Hfree]; set_solver).
    unfold wf. assert (({[ c ]} : gset Z) ∖ {[ c ]} = ∅) as <- by set_solver.
    by apply wf_terminate.
  - intros i t Ht _. simpl in Ht. apply lookup_delete_Some in Ht as [Hne Ht].
    apply (Hok i t Ht). set_solver.
Qed.

Lemma inv_terminate (tid : Z) (m : Manager) :
  inv m → tid ≠ curr_thread_id m → inv (terminate tid m).
Proof.
  intros [Hw Hok] Hne. split.
  - unfold wf. assert ((∅ : gset Z) ∖ {[ tid ]} = ∅) as <- by set_solver.
    by apply wf_terminate.
  - intros i t Ht _. simpl in Ht. apply lookup_delete_Some in Ht as [? Ht].
    by apply (Hok i t Ht).
Qed.

Lemma inv_update_quantums (m : Manager) :
  inv m → inv (update_thread (curr_thread_id m) incr_quantums m).
Proof.
  intros [Hw Hok]. split.
  - apply wf_with_update_thread; [|done]. by destruct Hw as [Hcur Hnd Hrdy Hout Hsub Hlim Hcov Hfree].
  - destruct Hw as [Hcur Hnd Hrdy Hout Hsub Hlim Hcov Hfree]. apply elem_of_dom in Hcur as [t Ht].
    rewrite (update_thread_live _ _ _ _ Ht). intros i t' Ht' _. simpl in *.
    apply lookup_insert_Some in Ht' as [[<- <-]|[? Ht']].
    + destruct (Hok _ _ Ht) as [H1 H2]; [set_solver|]. split; [done|].
      simpl. intros f Hf. destruct (H2 f Hf). done.
    + by apply (Hok i t' Ht').
Qed.

Lemma inv_save_context (site : ProgramPoint) (b : bool) (m m' : Manager) :
  inv m →
  set_next_thread_as_running
    (update_thread (curr_thread_id m) (set_env {| jmp_pc := site; saved_mask := b |}) m)
    = Some m' →
  inv_mid site (curr_thread_id m) m' ∧ head (readyQueue m) = Some (curr_thread_id m').
Proof.
  intros [Hw Hok] Hn.
  destruct (elem_of_dom (threads m) (curr_thread_id m)) as [[t Ht] _]; [by destruct Hw as [Hcur Hnd Hrdy Hout Hsub Hlim Hcov Hfree]|].
  rewrite (update_thread_live _ _ _ _ Ht) in Hn.
  set (e := {| jmp_pc := site; saved_mask := b |}) in *.
  assert (wf (set_threads (<[curr_thread_id m:=set_env e t]> (threads m)) m)) as Hw'.
  { apply wf_with_set_threads; [|done]. rewrite dom_insert_L.
    apply elem_of_dom_2 in Ht. set_solver. }
  destruct (wf_set_next_thread_as_running _ _ Hw' Hn) as (Hmid & Hhd & Hth).
  simpl in *. split; [|done]. split; [done|]. split.
  - intros i t' Ht' Hi. rewrite Hth in Ht'.
    apply lookup_insert_Some in Ht' as [[<- <-]|[? Ht']]; [set_solver|].
    destruct (Hok i t' Ht') as [H1 H2]; [set_solver|]. split; [done|].
    intros f Hf. destruct (H2 f Hf) as [? Hq]. split; [done|]. intros _.
    apply Hq. done.
  - exists (set_env e t). rewrite Hth. by rewrite lookup_insert_eq.
Qed.

Lemma Inv_switch_threads_body (site : ProgramPoint) (h : State → State) (s s' : State) :
  Inv s →
  (∀ s1, inv_mid site (curr_thread_id (threadsCollectionManager s))
           (threadsCollectionManager s1) → Inv (h s1)) →
  switch_threads_body site h s = Some s' →
  Inv s'.
Proof.
  intros HI Hh Hb. unfold switch_threads_body in Hb. simpl in Hb.
  case_match eqn:E; [|done]. injection Hb as <-.
  apply (inv_save_context _ _ _ _ HI) in E as [Hmid _].
  unfold Inv. simpl. apply inv_update_quantums. by apply Hh.
Qed.

Lemma Inv_delete_thread_limbo (c : Z) (s : State) :
  inv_mid (InTerminate c) c (threadsCollectionManager s) → Inv (delete_thread c s).
Proof.
  intros Hmid. unfold delete_thread, Inv. simpl.
  apply inv_terminate_limbo in Hmid.
  case_bool_decide; simpl; [by apply inv_advance_mutex_line|done].
Qed.

Lemma Inv_delete_thread (tid : Z) (s : State) :
  Inv s → tid ≠ curr_thread_id (threadsCollectionManager s) → Inv (delete_thread tid s).
Proof.
  intros HI Hne. unfold delete_thread, Inv. simpl.
  pose proof (inv_terminate _ _ HI Hne).
  case_bool_decide; simpl; [by apply inv_advance_mutex_line|done].
Qed.

Lemma Inv_set_as_ready_limbo (c : Z) (s : State) :
  inv_mid InTimeSigHandler c (threadsCollectionManager s) →
  Inv (with_manager (set_as_ready c) s).
Proof.
  apply inv_mid_handler; try done.
  - intros m. unfold set_as_ready. by case_match.
  - apply wf_set_as_ready_limbo.
Qed.

Lemma Inv_block_limbo (c : Z) (s : State) :
  inv_mid InBlock c (threadsCollectionManager s) → Inv (with_manager (block c) s).
Proof. apply inv_mid_handler; try done. apply wf_block_limbo. Qed.

Lemma Inv_wait_for_mutex_limbo (c : Z) (s : State) :
  inv_mid InMutexLock c (threadsCollectionManager s) →
  Inv (with_manager (wait_for_mutex c) s).
Proof. apply inv_mid_handler; try done. apply wf_wait_for_mutex_limbo. Qed.

Lemma current_thread_live (s : State) :
  Inv s →
  ∃ t, threads (threadsCollectionManager s) !! curr_thread_id (threadsCollectionManager s) = Some t ∧
       get_current_thread (threadsCollectionManager s) = (t, threadsCollectionManager s) ∧
       thread_ok (threadsCollectionManager s) (curr_thread_id (threadsCollectionManager s)) t.
Proof.
  intros [Hw Hok].
  destruct (elem_of_dom (threads (threadsCollectionManager s))
              (curr_thread_id (threadsCollectionManager s))) as [[t Ht] _]; [by destruct Hw as [Hcur Hnd Hrdy Hout Hsub Hlim Hcov Hfree]|].
  exists t. split; [done|]. split; [by apply get_thread_live|].
  apply Hok; [done|set_solver].
Qed.

Lemma Inv_siglongjmp {A : Type} (fuel : nat) (s s' : State) :
  Inv s → steady (siglongjmp (A:=A) fuel s) = Some s' → Inv s'.
Proof.
  revert s. induction fuel as [|fuel IH]; intros s HI Hs;
    destruct (current_thread_live s HI) as (t & Ht & Hg & [Hok1 Hok2]);
    simpl in Hs; rewrite Hg in Hs;
    destruct (jmp_pc (env t)) eqn:Epc; simpl in Hs; try done;
    try (by injection Hs as <-); try (by destruct (Hok1 tid)).
  - destruct (locked (mutex s)); [done|]. by injection Hs as <-.
  - destruct (locked (mutex s)); [|by injection Hs as <-].
    case_match eqn:Eb; [|done]. apply IH in Hs; [done|].
    eapply Inv_switch_threads_body; [| |exact Eb]; [done|].
    simpl. intros s1. apply Inv_wait_for_mutex_limbo.
Qed.

Lemma Inv_switch_threads {A : Type} (site : ProgramPoint) (h : State → State) (s s' : State) :
  Inv s →
  (∀ s1, inv_mid site (curr_thread_id (threadsCollectionManager s))
           (threadsCollectionManager s1) → Inv (h s1)) →
  steady (switch_threads (A:=A) site h s) = Some s' →
  Inv s'.
Proof.
  intros HI Hh Hs. unfold switch_threads in Hs. case_match eqn:Eb; [|done].
  eapply Inv_siglongjmp; [|exact Hs]. by eapply Inv_switch_threads_body.
Qed.

Lemma manager_mask_time_signal (how : SigHow) (s : State) :
  threadsCollectionManager (mask_time_signal how s) = threadsCollectionManager s.
Proof. by destruct how. Qed.

Lemma mutex_mask_time_signal (how : SigHow) (s : State) :
  mutex (mask_time_signal how s) = mutex s.
Proof. by destruct how. Qed.

Lemma total_quantums_mask_time_signal (how : SigHow) (s : State) :
  total_quantums (mask_time_signal how s) = total_quantums s.
Proof. by destruct how. Qed.

Lemma Inv_mask_time_signal (how : SigHow) (s : State) :
  Inv (mask_time_signal how s) ↔ Inv s.
Proof. unfold Inv. by rewrite manager_mask_time_signal. Qed.

Lemma Inv_time_sig_handler (s s' : State) :
  Inv s → steady (time_sig_handler s) = Some s' → Inv s'.
Proof.
  intros HI Hp. unfold time_sig_handler in Hp. case_match eqn:Ew.
  - apply (inj Some) in Hp as <-. by apply inv_update_quantums.
  - eapply (Inv_switch_threads (A:=unit)); [| |exact Hp]; [done|].
    intros s1. apply Inv_set_as_ready_limbo.
Qed.

Lemma Inv_perform (e : Event) (s s' : State) :
  Inv s → perform e s = Some s' → Inv s'.
Proof.
  intros HI Hp.
  pose proof (proj2 (Inv_mask_time_signal SIG_BLOCK s) HI) as HIb.
  destruct e; unfold perform in Hp.
  - unfold uthread_spawn in Hp. case_match eqn:Ec. apply (inj Some) in Hp as <-.
    eapply inv_create_thread; [exact HI|exact Ec].
  - unfold uthread_terminate in Hp.
    case_bool_decide; [done|]. case_match; [by apply (inj Some) in Hp as <-|].
    case_bool_decide as Hc.
    + eapply (Inv_switch_threads (A:=Z)); [| |exact Hp]; [done|].
      intros s1 Hmid. apply Inv_delete_thread_limbo.
      revert Hmid. unfold switch_threads_mid_quantum, set_timer, get_curr_id in *.
      by rewrite <- Hc.
    + apply (inj Some) in Hp as <-. apply Inv_mask_time_signal. by apply Inv_delete_thread.
  - unfold uthread_block in Hp.
    case_match eqn:Eg; [by apply (inj Some) in Hp as <-|].
    apply orb_false_elim in Eg as [_ Hc]. apply negb_false_iff in Hc.
    apply bool_decide_eq_true, elem_of_dom in Hc.
    case_bool_decide as Hcur.
    + eapply (Inv_switch_threads (A:=Z)); [| |exact Hp]; [done|].
      intros s1 Hmid. apply Inv_block_limbo.
      revert Hmid. unfold switch_threads_mid_quantum, set_timer, get_curr_id in *.
      by rewrite Hcur.
    + apply (inj Some) in Hp as <-. apply Inv_mask_time_signal.
      destruct HIb as [Hw Hok]. split; [|done].
      apply wf_block; [done..|]. unfold get_curr_id in Hcur. congruence.
  - unfold uthread_resume in Hp. case_match eqn:Er. apply (inj Some) in Hp as <-.
    apply Inv_mask_time_signal.
    destruct HIb as [Hw Hok]. split; [by eapply wf_resume|].
    unfold resume in Er. case_match; injection Er as <- <-; [|done].
    unfold set_as_ready. by case_match.
  - unfold uthread_mutex_lock in Hp.
    case_bool_decide; [by apply (inj Some) in Hp as <-|].
    case_match; [|apply (inj Some) in Hp as <-; by apply Inv_mask_time_signal].
    eapply (Inv_switch_threads (A:=Z)); [| |exact Hp]; [done|].
    intros s1. apply Inv_wait_for_mutex_limbo.
  - unfold uthread_mutex_unlock in Hp.
    case_match; apply (inj Some) in Hp as <-; [by apply Inv_mask_time_signal|].
    apply Inv_mask_time_signal. by apply inv_advance_mutex_line.
  - by apply (inj Some) in Hp as <-.
  - by apply (inj Some) in Hp as <-.
  - unfold uthread_get_quantums in Hp.
    case_match eqn:Ec; [by apply (inj Some) in Hp as <-|].
    apply negb_false_iff, bool_decide_eq_true in Ec as [t Ht].
    rewrite (get_thread_live _ _ _ Ht) in Hp. apply (inj Some) in Hp as <-.
    by apply Inv_mask_time_signal.
  - case_match; [done|]. unfold deliver_SIGVTALRM in Hp.
    destruct (time_sig_handler (set_sigmask true s)) as [v s1|s1| | |] eqn:Eh;
      try done; apply (inj Some) in Hp as <-.
    + enough (Inv s1) by done.
      apply (Inv_time_sig_handler (set_sigmask true s)); [done|]. by rewrite Eh.
    + apply (Inv_time_sig_handler (set_sigmask true s)); [done|]. by rewrite Eh.
Qed.

Lemma Inv_uthread_init (M S q : Z) (s : State) :
  uthread_init q (static_state M S) = Returns SUCCESS s → Inv s.
Proof.
  unfold uthread_init. case_match; [done|]. intros [= <-].
  apply inv_Manager_new.
Qed.

Lemma reachable_by_Inv (allowed : Event → Prop) (M S : Z) (s : State) :
  reachable_by allowed M S s → Inv s.
Proof.
  induction 1 as [q s Hq|e s s' _ IH _ Hp].
  - by eapply Inv_uthread_init.
  - by eapply Inv_perform.
Qed.

Lemma reachable_by_weaken (allowed : Event → Prop) (M S : Z) (s : State) :
  reachable_by allowed M S s → reachable M S s.
Proof.
  induction 1 as [q s Hq|e s s' _ IH _ Hp].
  - by eapply reachable_init.
  - by eapply reachable_step.
Qed.

Lemma run_reachable_by (allowed : Event → Prop) (M S : Z) (es : list Event) (s s' : State) :
  reachable_by allowed M S s → Forall allowed es → run es s = Some s' →
  reachable_by allowed M S s'.
Proof.
  revert s. induction es as [|e es IH]; intros s Hr Ha Hrun; simpl in Hrun.
  - by injection Hrun as <-.
  - destruct (perform e s) as [s1|] eqn:E; [|done].
    apply Forall_cons in Ha as [He Ha].
    apply (IH s1); [|done..]. by eapply reachable_step.
Qed.

Lemma boot_reachable_by (allowed : Event → Prop) (M S q : Z) (es : list Event) (s : State) :
  Forall allowed es → boot M S q es = Some s → reachable_by allowed M S s.
Proof.
  unfold boot. destruct (uthread_init q (static_state M S)) as [v s0| | | |] eqn:E; try done.
  destruct v; try done. intros Ha Hrun.
  eapply run_reachable_by; [|exact Ha|exact Hrun]. by eapply reachable_init.
Qed.

Lemma boot_reachable (M S q : Z) (es : list Event) (s : State) :
  boot M S q es = Some s → reachable M S s.
Proof. apply boot_reachable_by. by apply Forall_forall. Qed.

(** ** The bound on chained switches is never reached *)

Lemma readyQueue_update_thread (tid : Z) (g : Thread → Thread) (m : Manager) :
  readyQueue (update_thread tid g m) = readyQueue m.
Proof. unfold update_thread, get_thread. by destruct (threads m !! tid). Qed.

Lemma siglongjmp_fuel {A : Type} (fuel : nat) (s : State) :
  (length (readyQueue (threadsCollectionManager s)) < fuel)%nat →
  siglongjmp (A:=A) fuel s ≠ OutOfFuel.
Proof.
  revert s. induction fuel as [|fuel IH]; intros s Hlen; [lia|].
  simpl. unfold get_current_thread, get_thread.
  destruct (threads _ !! _) as [t|]; simpl; [|done].
  destruct (jmp_pc (env t)); try done.
  destruct (locked (mutex s)); [|done].
  unfold switch_threads_body, set_timer. simpl.
  unfold set_next_thread_as_running. rewrite readyQueue_update_thread. simpl.
  destruct (readyQueue (threadsCollectionManager s)) as [|n rest] eqn:Eq; [done|].
  apply IH. simpl. rewrite readyQueue_update_thread. simpl. simpl in Hlen. lia.
Qed.

Lemma switch_threads_fuel {A : Type} (site : ProgramPoint) (h : State → State) (s : State) :
  switch_threads (A:=A) site h s ≠ OutOfFuel.
Proof.
  unfold switch_threads. case_match; [|done]. apply siglongjmp_fuel. lia.
Qed.

(** * The mutex line *)

(** C4. [advance_mutex_line]: with an empty mutex line nothing changes;
    if some waiter is not blocked, the least such id leaves the line and
    goes to the back of the ready queue; if every waiter is blocked, exactly
    one id (the least waiter) leaves the line and nothing is enqueued. *)
Theorem advance_mutex_line_cases (m : Manager) :
  (waiting_fot_mutex m = ∅ → advance_mutex_line m = m) ∧
  (waiting_fot_mutex m ∖ blocked m ≠ ∅ →
     ∃ w, w ∈ waiting_fot_mutex m ∧ (w ∉ blocked m) ∧
          (∀ y, y ∈ waiting_fot_mutex m → y ∉ blocked m → w ≤ y) ∧
          advance_mutex_line m =
            set_waiting_fot_mutex (waiting_fot_mutex m ∖ {[ w ]})
              (set_readyQueue (readyQueue m ++ [w]) m)) ∧
  (waiting_fot_mutex m ≠ ∅ → waiting_fot_mutex m ⊆ blocked m →
     ∃ w, w ∈ waiting_fot_mutex m ∧
          size (waiting_fot_mutex m) = S (size (waiting_fot_mutex (advance_mutex_line m))) ∧
          advance_mutex_line m =
            set_waiting_fot_mutex (waiting_fot_mutex m ∖ {[ w ]}) m).
Proof.
  unfold advance_mutex_line. split; [|split].
  - intros Hw. by rewrite bool_decide_eq_true_2.
  - intros Hd. rewrite bool_decide_eq_false_2 by set_solver.
    destruct (set_begin_is_Some _ Hd) as [w Hw]. rewrite Hw.
    apply set_begin_Some in Hw as [[Hw1 Hw2]%elem_of_difference Hmin].
    exists w. split; [done|]. split; [done|]. split; [|done].
    intros y Hy Hyb. apply Hmin. set_solver.
  - intros Hne Hsub. rewrite bool_decide_eq_false_2 by done.
    assert (waiting_fot_mutex m ∖ blocked m = ∅) as Hd by set_solver.
    apply set_begin_None in Hd. rewrite Hd. unfold erase_begin.
    destruct (set_begin_is_Some _ Hne) as [w Hw]. rewrite Hw.
    apply set_begin_Some in Hw as [Hw _].
    exists w. split; [done|]. split; [|done]. simpl.
    rewrite size_difference by set_solver. rewrite size_singleton.
    assert (size (waiting_fot_mutex m) ≠ 0%nat); [|lia].
    by apply size_non_empty_iff; intros ?%leibniz_equiv.
Qed.

Lemma advance_mutex_line_cases_witness :
  advance_mutex_line line_empty = line_empty ∧
  (∃ w, w ∈ waiting_fot_mutex line_mixed ∧ (w ∉ blocked line_mixed) ∧
        (∀ y, y ∈ waiting_fot_mutex line_mixed → y ∉ blocked line_mixed → w ≤ y) ∧
        advance_mutex_line line_mixed =
          set_waiting_fot_mutex (waiting_fot_mutex line_mixed ∖ {[ w ]})
            (set_readyQueue (readyQueue line_mixed ++ [w]) line_mixed)) ∧
  (∃ w, w ∈ waiting_fot_mutex line_all_blocked ∧
        size (waiting_fot_mutex line_all_blocked) =
          S (size (waiting_fot_mutex (advance_mutex_line line_all_blocked))) ∧
        advance_mutex_line line_all_blocked =
          set_waiting_fot_mutex (waiting_fot_mutex line_all_blocked ∖ {[ w ]})
            line_all_blocked).
Proof.
  split; [|split].
  - apply (proj1 (advance_mutex_line_cases line_empty)). reflexivity.
  - apply (proj1 (proj2 (advance_mutex_line_cases line_mixed))).
    apply (bool_decide_unpack _). vm_compute. exact I.
  - apply (proj2 (proj2 (advance_mutex_line_cases line_all_blocked))).
    + apply (bool_decide_unpack _). vm_compute. exact I.
    + apply (bool_decide_unpack _). vm_compute. exact I.
Defined.

Example advance_mutex_line_mixed :
  readyQueue (advance_mutex_line line_mixed) = [5; 3] ∧
  elements (waiting_fot_mutex (advance_mutex_line line_mixed)) = [4; 2].
Proof. vm_compute. done. Qed.

Example advance_mutex_line_all_blocked :
  readyQueue (advance_mutex_line line_all_blocked) = [5] ∧
  elements (waiting_fot_mutex (advance_mutex_line line_all_blocked)) = [4].
Proof. vm_compute. done. Qed.

(** * The mutex *)

(** C5. [uthread_mutex_lock] returns -1 when the running thread holds the
    mutex; [uthread_mutex_unlock] returns -1 when the mutex is unlocked or
    held by another thread; both leave the mutex and the collection as they
    were. A successful unlock clears [locked] and the holder and runs
    [advance_mutex_line]. *)
Theorem mutex_errors_and_unlock (s : State) :
  (locking_thread (mutex s) = curr_thread_id (threadsCollectionManager s) →
     ∃ s', uthread_mutex_lock s = Returns (-1) s' ∧ same_library_state s s') ∧
  (locked (mutex s) = false ∨
   locking_thread (mutex s) ≠ curr_thread_id (threadsCollectionManager s) →
     ∃ s', uthread_mutex_unlock s = Returns (-1) s' ∧ same_library_state s s') ∧
  (locked (mutex s) = true →
   locking_thread (mutex s) = curr_thread_id (threadsCollectionManager s) →
     ∃ s', uthread_mutex_unlock s = Returns 0 s' ∧
           mutex s' = {| locked := false; locking_thread := -1 |} ∧
           threadsCollectionManager s' = advance_mutex_line (threadsCollectionManager s) ∧
           total_quantums s' = total_quantums s).
Proof.
  split; [|split].
  - intros Hh. eexists. split.
    + unfold uthread_mutex_lock. rewrite bool_decide_eq_true_2; [reflexivity|].
      by rewrite mutex_mask_time_signal, manager_mask_time_signal.
    + done.
  - intros Hh. eexists. split.
    + unfold uthread_mutex_unlock.
      rewrite mutex_mask_time_signal, manager_mask_time_signal.
      destruct Hh as [->|Hh]; [reflexivity|].
      rewrite (bool_decide_eq_true_2 _ Hh). rewrite orb_true_r. reflexivity.
    + done.
  - intros Hl Hh. eexists. split.
    + unfold uthread_mutex_unlock.
      rewrite mutex_mask_time_signal, manager_mask_time_signal, Hl.
      rewrite bool_decide_eq_false_2 by (intros Hn; by apply Hn). reflexivity.
    + done.
Qed.

Lemma mutex_errors_and_unlock_witness :
  (∃ s', uthread_mutex_lock mutex_held_by_main = Returns (-1) s' ∧
         same_library_state mutex_held_by_main s') ∧
  (∃ s', uthread_mutex_unlock (static_state 8 4096) = Returns (-1) s' ∧
         same_library_state (static_state 8 4096) s') ∧
  (∃ s', uthread_mutex_unlock mutex_held_by_main = Returns 0 s' ∧
         mutex s' = {| locked := false; locking_thread := -1 |} ∧
         threadsCollectionManager s' =
           advance_mutex_line (threadsCollectionManager mutex_held_by_main) ∧
         total_quantums s' = total_quantums mutex_held_by_main).
Proof.
  split; [|split].
  - apply (proj1 (mutex_errors_and_unlock mutex_held_by_main)). reflexivity.
  - apply (proj1 (proj2 (mutex_errors_and_unlock (static_state 8 4096)))).
    left. reflexivity.
  - apply (proj2 (proj2 (mutex_errors_and_unlock mutex_held_by_main))); reflexivity.
Defined.

(** * Resuming *)

Lemma set_blocked_same (m : Manager) : set_blocked (blocked m) m = m.
Proof. by destruct m. Qed.

(** C6. [uthread_resume tid] returns -1 exactly when no thread has id [tid],
    and 0 otherwise, in which case [tid] leaves the blocked set and is put
    at the back of the ready queue only if it is not the running thread and
    is neither in the ready queue nor in the mutex line (nor, after its
    removal, in the blocked set). A thread of the mutex line stays there and
    is not enqueued, and in a consistent state resuming a thread that is
    neither blocked nor waiting changes nothing. *)
Theorem uthread_resume_spec (s : State) (tid : Z) :
  ∃ r s',
    uthread_resume tid s = Returns r s' ∧
    mutex s' = mutex s ∧ total_quantums s' = total_quantums s ∧
    (r = -1 ↔ tid ∉ dom (threads (threadsCollectionManager s))) ∧
    (tid ∉ dom (threads (threadsCollectionManager s)) →
       threadsCollectionManager s' = threadsCollectionManager s) ∧
    (tid ∈ dom (threads (threadsCollectionManager s)) →
       r = 0 ∧
       (tid ∉ blocked (threadsCollectionManager s')) ∧
       threadsCollectionManager s' =
         let m := set_blocked (blocked (threadsCollectionManager s) ∖ {[ tid ]})
                    (threadsCollectionManager s) in
         if decide (tid ≠ curr_thread_id m ∧ (tid ∉ readyQueue m) ∧
                    (tid ∉ waiting_fot_mutex m) ∧ tid ∉ blocked m)
         then set_readyQueue (readyQueue m ++ [tid]) m
         else m) ∧
    (tid ∈ dom (threads (threadsCollectionManager s)) →
     tid ∈ waiting_fot_mutex (threadsCollectionManager s) →
       tid ∈ waiting_fot_mutex (threadsCollectionManager s') ∧
       readyQueue (threadsCollectionManager s') = readyQueue (threadsCollectionManager s)) ∧
    (Inv s →
     tid ∈ dom (threads (threadsCollectionManager s)) →
     tid ∉ blocked (threadsCollectionManager s) →
     tid ∉ waiting_fot_mutex (threadsCollectionManager s) →
       same_library_state s s').
Proof.
  unfold uthread_resume. rewrite manager_mask_time_signal.
  set (m := threadsCollectionManager s).
  unfold resume, contains. case_bool_decide as Hc.
  - apply elem_of_dom in Hc.
    eexists _, _. split; [reflexivity|].
    rewrite mutex_mask_time_signal, total_quantums_mask_time_signal,
      manager_mask_time_signal. simpl.
    split; [done|]. split; [done|]. split; [|split; [|split; [|split]]].
    + unfold SUCCESS. split; [done|]. intros Hn. by destruct Hn.
    + intros Hn. by destruct Hn.
    + intros _. split; [done|].
      assert (∀ m0, threads m0 = threads m0 → ∀ x,
                 blocked (set_as_ready x m0) = blocked m0) as Hb.
      { intros m0 _ x. unfold set_as_ready. by case_match. }
      split.
      * rewrite Hb by done. simpl. set_solver.
      * unfold set_as_ready. simpl.
        destruct (decide _) as [(H1 & H2 & H3 & H4)|Hn].
        -- by rewrite !bool_decide_eq_true_2.
        -- case_match eqn:E; [|done]. exfalso. apply Hn.
           repeat (apply andb_prop in E as [E ?]).
           repeat match goal with
                  | H : bool_decide _ = true |- _ => apply bool_decide_eq_true in H
                  end.
           done.
    + intros _ Hw. unfold set_as_ready. simpl.
      rewrite (bool_decide_eq_false_2 (tid ∉ waiting_fot_mutex m)) by (intros Hn; by apply Hn).
      rewrite andb_false_r. simpl. done.
    + intros [Hwf _] _ Hnb Hnw. split; [|done].
      assert (blocked m ∖ {[ tid ]} = blocked m) as -> by set_solver.
      rewrite set_blocked_same. by apply set_as_ready_live.
  - eexists _, _. split; [reflexivity|].
    rewrite mutex_mask_time_signal, total_quantums_mask_time_signal,
      manager_mask_time_signal. simpl.
    assert (tid ∉ dom (threads m)) as Hn by (by rewrite elem_of_dom).
    split; [done|]. split; [done|]. split; [done|]. split; [done|].
    split; [done|]. split; [done|]. done.
Qed.

Lemma state_after_reachable (M S q : Z) (es : list Event) :
  is_Some (boot M S q es) → reachable M S (state_after M S q es).
Proof.
  intros [s Hs]. unfold state_after. rewrite Hs. simpl. by eapply boot_reachable.
Qed.

Lemma uthread_resume_spec_witness :
  (∃ r s', uthread_resume 1 blocked_waiter_state = Returns r s' ∧ r = 0 ∧
           1 ∈ waiting_fot_mutex (threadsCollectionManager s') ∧
           (1 ∉ blocked (threadsCollectionManager s')) ∧
           readyQueue (threadsCollectionManager s') =
             readyQueue (threadsCollectionManager blocked_waiter_state)) ∧
  (∃ r s', uthread_resume 1 one_spawned = Returns r s' ∧ r = 0 ∧
           same_library_state one_spawned s') ∧
  (∃ r s', uthread_resume 5 one_spawned = Returns r s' ∧ r = -1).
Proof.
  split; [|split].
  - destruct (uthread_resume_spec blocked_waiter_state 1)
      as (r & s' & Hr & _ & _ & _ & _ & H1 & H2 & _).
    exists r, s'. split; [exact Hr|].
    assert (1 ∈ dom (threads (threadsCollectionManager blocked_waiter_state))) as Hd.
    { apply (bool_decide_unpack _). vm_compute. exact I. }
    assert (1 ∈ waiting_fot_mutex (threadsCollectionManager blocked_waiter_state)) as Hw.
    { apply (bool_decide_unpack _). vm_compute. exact I. }
    destruct (H1 Hd) as (Hr0 & Hb & _). destruct (H2 Hd Hw) as [Hw' Hq].
    split; [exact Hr0|]. split; [exact Hw'|]. split; [exact Hb|exact Hq].
  - destruct (uthread_resume_spec one_spawned 1)
      as (r & s' & Hr & _ & _ & _ & _ & H1 & _ & H3).
    exists r, s'. split; [exact Hr|].
    assert (1 ∈ dom (threads (threadsCollectionManager one_spawned))) as Hd.
    { apply (bool_decide_unpack _). vm_compute. exact I. }
    split; [exact (proj1 (H1 Hd))|]. apply H3.
    + apply (reachable_by_Inv (λ _, True) 100 4096).
      apply state_after_reachable. vm_compute. eexists. reflexivity.
    + exact Hd.
    + apply (bool_decide_unpack _). vm_compute. exact I.
    + apply (bool_decide_unpack _). vm_compute. exact I.
  - destruct (uthread_resume_spec one_spawned 5)
      as (r & s' & Hr & _ & _ & H0 & _).
    exists r, s'. split; [exact Hr|]. apply H0.
    apply (bool_decide_unpack _). vm_compute. exact I.
Defined.

(** * Spawning *)

Lemma available_ids_update_thread (tid : Z) (f : Thread → Thread) (m : Manager) :
  available_ids (update_thread tid f m) = available_ids m.
Proof. unfold update_thread, get_thread. by destruct (threads m !! tid). Qed.

Lemma available_ids_advance_mutex_line (m : Manager) :
  available_ids (advance_mutex_line m) = available_ids m.
Proof. unfold advance_mutex_line. case_bool_decide; [done|]. by case_match. Qed.

Lemma available_ids_delete_thread (tid : Z) (s : State) :
  available_ids (threadsCollectionManager (delete_thread tid s)) =
  {[ tid ]} ∪ available_ids (threadsCollectionManager s).
Proof.
  unfold delete_thread. case_bool_decide; simpl; [|done].
  by rewrite available_ids_advance_mutex_line.
Qed.

Lemma available_ids_switch_threads_body (site : ProgramPoint) (h : State → State)
    (s s' : State) :
  switch_threads_body site h s = Some s' →
  ∃ s1, available_ids (threadsCollectionManager s1) = available_ids (threadsCollectionManager s) ∧
        available_ids (threadsCollectionManager s') = available_ids (threadsCollectionManager (h s1)).
Proof.
  unfold switch_threads_body. intros Hb. case_match eqn:E; [|done].
  injection Hb as <-. eexists. split; [|simpl; by rewrite available_ids_update_thread].
  simpl. unfold set_next_thread_as_running in E. case_match; [done|].
  injection E as <-. simpl. by rewrite available_ids_update_thread.
Qed.

Lemma available_ids_siglongjmp {A : Type} (fuel : nat) (s s' : State) :
  Inv s → steady (siglongjmp (A:=A) fuel s) = Some s' →
  available_ids (threadsCollectionManager s') = available_ids (threadsCollectionManager s).
Proof.
  revert s. induction fuel as [|fuel IH]; intros s HI Hs;
    destruct (current_thread_live s HI) as (t & Ht & Hg & [Hok1 Hok2]);
    simpl in Hs; rewrite Hg in Hs;
    destruct (jmp_pc (env t)) eqn:Epc; try done;
    try (by apply (inj Some) in Hs as <-); try (by destruct (Hok1 tid)).
  - destruct (locked _); [done|]. by apply (inj Some) in Hs as <-.
  - destruct (locked _); [|by apply (inj Some) in Hs as <-].
    case_match eqn:Eb; [|done].
    apply IH in Hs.
    + rewrite Hs. apply available_ids_switch_threads_body in Eb as (s1 & H1 & H2).
      by rewrite H2.
    + eapply Inv_switch_threads_body; [| |exact Eb]; [done|].
      intros s1. apply Inv_wait_for_mutex_limbo.
Qed.

Lemma available_ids_uthread_terminate (tid : Z) (s s' : State) :
  Inv s → tid ∈ dom (threads (threadsCollectionManager s)) →
  steady (uthread_terminate tid s) = Some s' →
  available_ids (threadsCollectionManager s') =
    {[ tid ]} ∪ available_ids (threadsCollectionManager s).
Proof.
  intros HI Hd Hs. unfold uthread_terminate in Hs.
  case_bool_decide; [done|].
  rewrite manager_mask_time_signal in Hs. unfold contains in Hs.
  rewrite bool_decide_eq_true_2 in Hs by (by apply elem_of_dom). simpl in Hs.
  case_bool_decide as Hc.
  - unfold switch_threads_mid_quantum, switch_threads, set_timer in Hs.
    case_match eqn:Eb; [|done].
    apply available_ids_siglongjmp in Hs.
    + rewrite Hs. apply available_ids_switch_threads_body in Eb as (s1 & H1 & H2).
      rewrite H2, available_ids_delete_thread, H1. by rewrite ?manager_mask_time_signal.
    + eapply Inv_switch_threads_body; [| |exact Eb]; [by apply Inv_mask_time_signal|].
      intros s1. rewrite manager_mask_time_signal. unfold get_curr_id in Hc.
      rewrite <- Hc. apply Inv_delete_thread_limbo.
  - apply (inj Some) in Hs as <-.
    by rewrite manager_mask_time_signal, available_ids_delete_thread,
      manager_mask_time_signal.
Qed.

(** C7. [uthread_spawn] returns -1 when no id is free. Otherwise it takes the
    least free id, stores a new thread record (counter 0) under it, puts the
    id at the back of the ready queue and returns it. After the thread [tid]
    of a reachable state has been terminated, the id the next spawn returns
    is therefore the least of [tid] and the ids that were free before. *)
Theorem uthread_spawn_spec (f : EntryPoint) (s : State) :
  (available_ids (threadsCollectionManager s) = ∅ → uthread_spawn f s = Returns (-1) s) ∧
  (available_ids (threadsCollectionManager s) ≠ ∅ →
     ∃ new_id,
       new_id ∈ available_ids (threadsCollectionManager s) ∧
       (∀ y, y ∈ available_ids (threadsCollectionManager s) → new_id ≤ y) ∧
       uthread_spawn f s =
         Returns new_id
           (with_manager (λ m,
              set_readyQueue (readyQueue m ++ [new_id])
                (set_threads (<[ new_id := Thread_spawned new_id (stack_size m) f ]> (threads m))
                   (set_available_ids (available_ids m ∖ {[ new_id ]}) m))) s)) ∧
  (∀ M S tid s1,
     reachable M S s → tid ∈ dom (threads (threadsCollectionManager s)) →
     steady (uthread_terminate tid s) = Some s1 →
     ∃ new_id s2,
       uthread_spawn f s1 = Returns new_id s2 ∧ new_id ≤ tid ∧
       (new_id = tid ∨ new_id ∈ available_ids (threadsCollectionManager s)) ∧
       (∀ y, y ∈ available_ids (threadsCollectionManager s) → new_id ≤ y)).
Proof.
  split; [|split].
  - intros He. unfold uthread_spawn, create_thread.
    apply set_begin_None in He. rewrite He. by destruct s.
  - intros Hne. destruct (set_begin_is_Some _ Hne) as [i Hi].
    exists i. unfold uthread_spawn, create_thread. rewrite Hi.
    apply set_begin_Some in Hi as [Hi Hmin]. done.
  - intros M S tid s1 Hr Hd Hs.
    apply reachable_by_Inv in Hr.
    pose proof (available_ids_uthread_terminate _ _ _ Hr Hd Hs) as Ha.
    assert (available_ids (threadsCollectionManager s1) ≠ ∅) as Hne by set_solver.
    destruct (set_begin_is_Some _ Hne) as [i Hi].
    unfold uthread_spawn, create_thread. rewrite Hi.
    apply set_begin_Some in Hi as [Hi Hmin]. rewrite Ha in Hi, Hmin.
    eexists _, _. split; [reflexivity|]. split; [apply Hmin; set_solver|].
    split; [set_solver|]. intros y Hy. apply Hmin. set_solver.
Qed.

Lemma uthread_spawn_spec_witness :
  ∃ s1 new_id s2,
    steady (uthread_terminate 2 three_spawned) = Some s1 ∧
    uthread_spawn 7 s1 = Returns new_id s2 ∧ new_id ≤ 2 ∧
    (new_id = 2 ∨ new_id ∈ available_ids (threadsCollectionManager three_spawned)) ∧
    (∀ y, y ∈ available_ids (threadsCollectionManager three_spawned) → new_id ≤ y).
Proof.
  assert (is_Some (steady (uthread_terminate 2 three_spawned))) as [s1 Hs1].
  { vm_compute. eexists. reflexivity. }
  exists s1.
  destruct (proj2 (proj2 (uthread_spawn_spec 7 three_spawned)) 100 4096 2 s1)
    as (new_id & s2 & H).
  - apply state_after_reachable. vm_compute. eexists. reflexivity.
  - apply (bool_decide_unpack _). vm_compute. exact I.
  - exact Hs1.
  - exists new_id, s2. split; [exact Hs1|exact H].
Defined.

Example spawn_reuses_lowest_id :
  match steady (uthread_terminate 2 three_spawned) with
  | Some s1 => match uthread_spawn 7 s1 with Returns new_id _ => new_id = 2 | _ => False end
  | None => False
  end.
Proof. vm_compute. reflexivity. Qed.

(** * The timer tick *)

Lemma size_t_incr_small (n : Z) : 0 ≤ n < 2 ^ 64 - 1 → size_t_incr n = n + 1.
Proof. intros H. unfold size_t_incr. apply Z.mod_small. lia. Qed.

(** C8. On a timer tick with an empty ready queue the handler does not
    switch: [total_quantums] and the counter of the running thread each go up
    by one (in [size_t] arithmetic) and nothing else changes. With a
    non-empty ready queue the handler runs [switch_threads] with the action
    [set_as_ready] on the thread that was running: the front of the ready
    queue becomes the running thread and, in a consistent state, the previous
    one is at the back of the queue when control is passed on. *)
Theorem time_sig_handler_spec (s : State) :
  (readyQueue (threadsCollectionManager s) = [] →
   ∀ t, threads (threadsCollectionManager s) !! curr_thread_id (threadsCollectionManager s) = Some t →
     ∃ s', time_sig_handler s = Returns tt s' ∧
       total_quantums s' = size_t_incr (total_quantums s) ∧
       (0 ≤ total_quantums s < 2 ^ 64 - 1 → total_quantums s' = total_quantums s + 1) ∧
       threadsCollectionManager s' =
         set_threads (<[ curr_thread_id (threadsCollectionManager s) := incr_quantums t ]>
                        (threads (threadsCollectionManager s))) (threadsCollectionManager s) ∧
       quantums (incr_quantums t) = size_t_incr (quantums t) ∧
       (0 ≤ quantums t < 2 ^ 64 - 1 → quantums (incr_quantums t) = quantums t + 1) ∧
       mutex s' = mutex s ∧ sigmask s' = sigmask s) ∧
  (∀ next rest, readyQueue (threadsCollectionManager s) = next :: rest →
     time_sig_handler s =
       switch_threads InTimeSigHandler
         (with_manager (set_as_ready (curr_thread_id (threadsCollectionManager s)))) s ∧
     ∃ s1,
       switch_threads_body InTimeSigHandler
         (with_manager (set_as_ready (curr_thread_id (threadsCollectionManager s)))) s = Some s1 ∧
       time_sig_handler s = siglongjmp (S (length (readyQueue (threadsCollectionManager s1)))) s1 ∧
       curr_thread_id (threadsCollectionManager s1) = next ∧
       total_quantums s1 = size_t_incr (total_quantums s) ∧
       (Inv s → readyQueue (threadsCollectionManager s1) =
                  rest ++ [curr_thread_id (threadsCollectionManager s)])).
Proof.
  split.
  - intros Hq t Ht. unfold time_sig_handler, is_someone_waiting. rewrite Hq. simpl.
    eexists. split; [reflexivity|]. simpl.
    split; [done|]. split; [apply size_t_incr_small|].
    split; [by rewrite (update_thread_live _ _ _ _ Ht)|].
    split; [done|]. split; [apply size_t_incr_small|]. done.
  - intros next rest Hq. unfold time_sig_handler, is_someone_waiting, get_curr_id.
    rewrite Hq. simpl.
    split; [done|]. unfold switch_threads.
    set (c := curr_thread_id (threadsCollectionManager s)).
    destruct (switch_threads_body InTimeSigHandler (with_manager (set_as_ready c)) s)
      as [s1|] eqn:Eb.
    + exists s1. split; [done|]. split; [done|].
      unfold switch_threads_body in Eb. simpl in Eb.
      destruct (set_next_thread_as_running _) as [m1|] eqn:En; [|done].
      injection Eb as <-.
      assert (m1 = set_curr_thread_id next (set_readyQueue rest
                (update_thread c (set_env {| jmp_pc := InTimeSigHandler; saved_mask := sigmask s |})
                   (threadsCollectionManager s)))) as Hm1.
      { unfold set_next_thread_as_running in En. fold c in En.
        assert (readyQueue (update_thread c
                  (set_env {| jmp_pc := InTimeSigHandler; saved_mask := sigmask s |})
                  (threadsCollectionManager s)) = next :: rest) as Hq'.
        { unfold update_thread, get_thread. by destruct (_ !! c). }
        rewrite Hq' in En. by injection En as <-. }
      assert (∀ m, curr_thread_id (update_thread (curr_thread_id m) incr_quantums m)
                   = curr_thread_id m) as Hcu.
      { intros m. unfold update_thread, get_thread. by destruct (_ !! _). }
      assert (∀ m, readyQueue (update_thread (curr_thread_id m) incr_quantums m)
                   = readyQueue m) as Hqu.
      { intros m. unfold update_thread, get_thread. by destruct (_ !! _). }
      assert (∀ m, curr_thread_id (set_as_ready c m) = curr_thread_id m) as Hcs.
      { intros m. unfold set_as_ready. by case_match. }
      simpl. rewrite Hcu, Hqu, Hcs. split; [by rewrite Hm1|]. split; [done|].
      intros HI. fold c in En.
      destruct (inv_save_context _ _ _ _ HI En) as [(Hw & _) _].
      unfold set_as_ready.
      assert (c ∉ readyQueue m1) as Hcr.
      { destruct Hw as [_ _ Hrdy _ _ _ _ _]. intros Hx.
        destruct (Hrdy c Hx) as (_ & _ & _ & _ & Hn). set_solver. }
      destruct Hw as [_ _ _ Hout _ Hlim _ _].
      rewrite !bool_decide_eq_true_2 by set_solver. simpl. by rewrite Hm1.
    + exfalso. unfold switch_threads_body in Eb. simpl in Eb.
      destruct (set_next_thread_as_running _) as [m1|] eqn:En; [done|].
      unfold set_next_thread_as_running in En.
      assert (readyQueue (update_thread (curr_thread_id (threadsCollectionManager s))
                (set_env {| jmp_pc := InTimeSigHandler; saved_mask := sigmask s |})
                (threadsCollectionManager s)) = next :: rest) as Hq'.
      { unfold update_thread, get_thread. by destruct (_ !! _). }
      by rewrite Hq' in En.
Qed.

Lemma time_sig_handler_spec_witness :
  (∃ s', time_sig_handler just_initialised = Returns tt s' ∧
         total_quantums s' = total_quantums just_initialised + 1 ∧
         threads (threadsCollectionManager s') !! 0 = Some (incr_quantums Thread_main)) ∧
  (∃ s1, time_sig_handler one_spawned
           = siglongjmp (S (length (readyQueue (threadsCollectionManager s1)))) s1 ∧
         curr_thread_id (threadsCollectionManager s1) = 1 ∧
         readyQueue (threadsCollectionManager s1) = [] ++ [0]).
Proof.
  split.
  - destruct (proj1 (time_sig_handler_spec just_initialised) eq_refl Thread_main eq_refl)
      as (s' & H1 & _ & H2 & H3 & _).
    exists s'. split; [exact H1|]. split.
    + apply H2. vm_compute. split; [discriminate|reflexivity].
    + rewrite H3. reflexivity.
  - destruct (proj2 (time_sig_handler_spec one_spawned) 1 [] eq_refl)
      as (_ & s1 & _ & H1 & H2 & _ & H3).
    exists s1. split; [exact H1|]. split; [exact H2|].
    apply H3. apply (reachable_by_Inv (λ _, True) 100 4096).
    apply state_after_reachable. vm_compute. eexists. reflexivity.
Defined.

(** * Terminating the holder of the mutex *)

Lemma switch_threads_body_pick (site : ProgramPoint) (h : State → State) (s : State)
    (next : Z) (rest : list Z) :
  readyQueue (threadsCollectionManager s) = next :: rest →
  switch_threads_body site h s =
    Some (with_manager (λ m, update_thread (curr_thread_id m) incr_quantums m)
            (h (set_manager (after_pick site (sigmask s) next rest (threadsCollectionManager s))
                  (set_total_quantums (size_t_incr (total_quantums s)) s)))).
Proof.
  intros Hq. unfold switch_threads_body. simpl.
  unfold set_next_thread_as_running.
  assert (readyQueue (update_thread (curr_thread_id (threadsCollectionManager s))
            (set_env {| jmp_pc := site; saved_mask := sigmask s |})
            (threadsCollectionManager s)) = next :: rest) as ->.
  { unfold update_thread, get_thread. by destruct (_ !! _). }
  done.
Qed.

Lemma delete_thread_holder (tid : Z) (s : State) :
  locking_thread (mutex s) = tid →
  mutex (delete_thread tid s) = unlocked ∧
  threadsCollectionManager (delete_thread tid s) =
    advance_mutex_line (terminate tid (threadsCollectionManager s)).
Proof.
  intros H. unfold delete_thread. simpl. by rewrite bool_decide_eq_true_2.
Qed.

Lemma threads_set_as_ready (tid : Z) (m : Manager) :
  threads (set_as_ready tid m) = threads m.
Proof. unfold set_as_ready. by case_match. Qed.

Lemma threads_advance_mutex_line (m : Manager) :
  threads (advance_mutex_line m) = threads m.
Proof. unfold advance_mutex_line. case_bool_decide; [done|]. by case_match. Qed.

Lemma curr_thread_id_advance_mutex_line (m : Manager) :
  curr_thread_id (advance_mutex_line m) = curr_thread_id m.
Proof. unfold advance_mutex_line. case_bool_decide; [done|]. by case_match. Qed.

(** C9 as amended. For a live thread [tid] other than the main thread that
    holds the mutex, the deletion run by [uthread_terminate tid] leaves the
    mutex unlocked with holder -1 and runs [advance_mutex_line] on the
    collection from which [tid] has been removed: directly, returning 0, when
    [tid] is not the running thread; as the action of the context switch, before
    control passes to the thread at the front of the ready queue, when it
    is. *)
Theorem uthread_terminate_holder (s : State) (tid : Z) :
  tid ≠ 0 →
  tid ∈ dom (threads (threadsCollectionManager s)) →
  locking_thread (mutex s) = tid →
  (tid ≠ curr_thread_id (threadsCollectionManager s) →
     ∃ s', uthread_terminate tid s = Returns 0 s' ∧
           mutex s' = unlocked ∧
           threadsCollectionManager s' =
             advance_mutex_line (terminate tid (threadsCollectionManager s))) ∧
  (tid = curr_thread_id (threadsCollectionManager s) →
   ∀ next rest, readyQueue (threadsCollectionManager s) = next :: rest →
     ∃ s1, uthread_terminate tid s
             = siglongjmp (S (length (readyQueue (threadsCollectionManager s1)))) s1 ∧
           mutex s1 = unlocked ∧
           threadsCollectionManager s1 =
             update_thread next incr_quantums
               (advance_mutex_line
                  (terminate tid
                     (after_pick (InTerminate tid) true next rest
                        (threadsCollectionManager s))))).
Proof.
  intros Hn0 Hlive Hhold. split.
  - intros Hnc. unfold uthread_terminate.
    rewrite bool_decide_eq_false_2 by done.
    rewrite manager_mask_time_signal. unfold contains.
    rewrite bool_decide_eq_true_2 by (by apply elem_of_dom). simpl.
    rewrite bool_decide_eq_false_2 by done.
    eexists. split; [reflexivity|].
    rewrite mutex_mask_time_signal, manager_mask_time_signal.
    destruct (delete_thread_holder tid (mask_time_signal SIG_BLOCK s)) as [-> ->].
    + by rewrite mutex_mask_time_signal.
    + by rewrite manager_mask_time_signal.
  - intros Hc next rest Hq. unfold uthread_terminate.
    rewrite bool_decide_eq_false_2 by done.
    rewrite manager_mask_time_signal. unfold contains.
    rewrite bool_decide_eq_true_2 by (by apply elem_of_dom). simpl.
    rewrite bool_decide_eq_true_2 by done.
    unfold switch_threads_mid_quantum, switch_threads, set_timer.
    rewrite (switch_threads_body_pick _ _ _ next rest)
      by (by rewrite manager_mask_time_signal).
    eexists. split; [reflexivity|].
    unfold with_manager at 1 2. simpl.
    match goal with |- context [delete_thread tid ?x] =>
      destruct (delete_thread_holder tid x) as [Hm Hc']
    end.
    { simpl. by rewrite ?mutex_mask_time_signal. }
    split; [exact Hm|].
    rewrite Hc'. simpl. by rewrite curr_thread_id_advance_mutex_line.
Qed.

Lemma uthread_terminate_holder_witness :
  (∃ s', uthread_terminate 1 holder_ready = Returns 0 s' ∧ mutex s' = unlocked ∧
         threadsCollectionManager s' =
           advance_mutex_line (terminate 1 (threadsCollectionManager holder_ready))) ∧
  (∃ s1, uthread_terminate 1 holder_running
           = siglongjmp (S (length (readyQueue (threadsCollectionManager s1)))) s1 ∧
         mutex s1 = unlocked ∧
         threadsCollectionManager s1 =
           update_thread 2 incr_quantums
             (advance_mutex_line
                (terminate 1
                   (after_pick (InTerminate 1) true 2 [0]
                      (threadsCollectionManager holder_running))))).
Proof.
  split.
  - apply (proj1 (uthread_terminate_holder holder_ready 1 ltac:(discriminate)
                    ltac:(apply (bool_decide_unpack _); vm_compute; exact I) eq_refl)).
    vm_compute. discriminate.
  - apply (proj2 (uthread_terminate_holder holder_running 1 ltac:(discriminate)
                    ltac:(apply (bool_decide_unpack _); vm_compute; exact I) eq_refl)).
    + reflexivity.
    + reflexivity.
Defined.

(** C9 as stated fails for the main thread: when main holds the mutex,
    [uthread_terminate 0] ends the process at once; the mutex is not
    released and [advance_mutex_line] is not run. *)
Lemma uthread_terminate_main_holder :
  reachable 100 4096 main_holds ∧
  0 ∈ dom (threads (threadsCollectionManager main_holds)) ∧
  locked (mutex main_holds) = true ∧
  locking_thread (mutex main_holds) = 0 ∧
  uthread_terminate 0 main_holds = Exits 0 ∧
  ¬ ∃ s', steady (uthread_terminate 0 main_holds) = Some s' ∧ mutex s' = unlocked.
Proof.
  split; [apply state_after_reachable; vm_compute; by eexists|].
  split; [apply (bool_decide_unpack _); vm_compute; exact I|].
  split; [reflexivity|]. split; [reflexivity|]. split; [reflexivity|].
  intros (s' & Hs & _). discriminate Hs.
Qed.

(** * Quantum accounting *)


















(** * The partition of the live threads *)




(** * The signal mask *)

Lemma sig_log_mask_time_signal (how : SigHow) (s : State) :
  sig_log (mask_time_signal how s) = sig_log s ++ [how].
Proof. by destruct how. Qed.

Lemma sigmask_mask_time_signal (how : SigHow) (s : State) :
  sigmask (mask_time_signal how s) = match how with SIG_BLOCK => true | SIG_UNBLOCK => false end.
Proof. by destruct how. Qed.

Lemma sig_log_delete_thread (tid : Z) (s : State) :
  sig_log (delete_thread tid s) = sig_log s.
Proof. unfold delete_thread. by case_bool_decide. Qed.

Lemma bracketed_plain (s s1 : State) :
  sig_log s1 = sig_log s ++ [SIG_BLOCK] →
  bracketed s (mask_time_signal SIG_UNBLOCK s1).
Proof.
  intros H. split; [|apply sigmask_mask_time_signal].
  exists []. rewrite sig_log_mask_time_signal, H. by rewrite <- app_assoc.
Qed.

Lemma sigmask_siglongjmp {A : Type} (fuel : nat) (s s' : State) :
  Inv s → steady (siglongjmp (A:=A) fuel s) = Some s' → sigmask s' = false.
Proof.
  revert s. induction fuel as [|fuel IH]; intros s HI Hs;
    destruct (current_thread_live s HI) as (t & Ht & Hg & [Hok1 Hok2]);
    simpl in Hs; rewrite Hg in Hs;
    destruct (jmp_pc (env t)) eqn:Epc; try done;
    try (by apply (inj Some) in Hs as <-); try (by destruct (Hok1 tid)).
  - apply (inj Some) in Hs as <-. simpl. by destruct (Hok2 f).
  - destruct (locked _); [done|]. by apply (inj Some) in Hs as <-.
  - apply (inj Some) in Hs as <-. simpl. by destruct (Hok2 f).
  - destruct (locked _); [|by apply (inj Some) in Hs as <-].
    case_match eqn:Eb; [|done].
    apply IH in Hs; [done|].
    eapply Inv_switch_threads_body; [| |exact Eb]; [done|].
    intros s1. apply Inv_wait_for_mutex_limbo.
Qed.

Lemma sigmask_switch_threads {A : Type} (site : ProgramPoint) (h : State → State)
    (s s' : State) :
  Inv s →
  (∀ s1, inv_mid site (curr_thread_id (threadsCollectionManager s))
           (threadsCollectionManager s1) → Inv (h s1)) →
  steady (switch_threads (A:=A) site h s) = Some s' →
  sigmask s' = false.
Proof.
  intros HI Hh Hs. unfold switch_threads in Hs. case_match eqn:Eb; [|done].
  eapply sigmask_siglongjmp; [|exact Hs]. by eapply Inv_switch_threads_body.
Qed.

Lemma sigmask_switch_threads_mid_quantum {A : Type} (site : ProgramPoint)
    (h : State → State) (s s' : State) :
  Inv s →
  (∀ s1, inv_mid site (curr_thread_id (threadsCollectionManager s))
           (threadsCollectionManager s1) → Inv (h s1)) →
  steady (switch_threads_mid_quantum (A:=A) site h s) = Some s' →
  sigmask s' = false.
Proof. apply sigmask_switch_threads. Qed.

Lemma siglongjmp_never_returns {A : Type} (fuel : nat) (s : State) (v : A) (s' : State) :
  siglongjmp fuel s ≠ Returns v s'.
Proof.
  revert s. induction fuel as [|n IH]; intros s H; simpl in H;
    destruct (get_current_thread _) as [t m];
    destruct (jmp_pc (env t)); try done; destruct (locked _); try done.
  case_match; [|done]. by eapply IH.
Qed.

Lemma switch_threads_never_returns {A : Type} (site : ProgramPoint) (h : State → State)
    (s : State) (v : A) (s' : State) :
  switch_threads site h s ≠ Returns v s'.
Proof.
  unfold switch_threads. case_match; [|done]. apply siglongjmp_never_returns.
Qed.

(** C3 as amended. [uthread_terminate], [uthread_block], [uthread_resume],
    [uthread_mutex_lock] and [uthread_mutex_unlock] block SIGVTALRM first and
    unblock it last on every path that returns to the caller, and so does
    [uthread_get_quantums] for the id of a live thread; [uthread_init],
    [uthread_get_tid] and [uthread_get_total_quantums] make no call of
    [sigprocmask]. Whenever an event other than [uthread_get_quantums] on an
    unknown id happens in a consistent state with the signal unblocked, the
    signal is unblocked again at the next point where user code runs, a
    context switch included. *)
Theorem mask_discipline (s : State) :
  (∀ tid v s', uthread_terminate tid s = Returns v s' → bracketed s s') ∧
  (∀ tid v s', uthread_block tid s = Returns v s' → bracketed s s') ∧
  (∀ tid v s', uthread_resume tid s = Returns v s' → bracketed s s') ∧
  (∀ v s', uthread_mutex_lock s = Returns v s' → bracketed s s') ∧
  (∀ v s', uthread_mutex_unlock s = Returns v s' → bracketed s s') ∧
  (∀ tid v s', tid ∈ dom (threads (threadsCollectionManager s)) →
     uthread_get_quantums tid s = Returns v s' → bracketed s s') ∧
  (∀ q v s', uthread_init q s = Returns v s' → mask_untouched s s') ∧
  (∀ v s', uthread_get_tid s = Returns v s' → mask_untouched s s') ∧
  (∀ v s', uthread_get_total_quantums s = Returns v s' → mask_untouched s s') ∧
  (∀ e s', Inv s → sigmask s = false →
     (∀ tid, e = GetQuantums tid → tid ∈ dom (threads (threadsCollectionManager s))) →
     perform e s = Some s' → sigmask s' = false).
Proof.
  pose proof (sig_log_mask_time_signal SIG_BLOCK s) as Hlog.
  assert (∀ tid v s', uthread_terminate tid s = Returns v s' → bracketed s s') as Hterm.
  { intros tid v s' H. unfold uthread_terminate in H.
    case_bool_decide; [done|]. case_match.
    - injection H as <- <-. by apply bracketed_plain.
    - case_bool_decide.
      + by apply switch_threads_never_returns in H.
      + injection H as <- <-. apply bracketed_plain.
        by rewrite sig_log_delete_thread. }
  assert (∀ tid v s', uthread_block tid s = Returns v s' → bracketed s s') as Hblock.
  { intros tid v s' H. unfold uthread_block in H. case_match.
    - injection H as <- <-. by apply bracketed_plain.
    - case_bool_decide.
      + by apply switch_threads_never_returns in H.
      + injection H as <- <-. by apply bracketed_plain. }
  assert (∀ tid v s', uthread_resume tid s = Returns v s' → bracketed s s') as Hres.
  { intros tid v s' H. unfold uthread_resume in H. case_match.
    injection H as <- <-. by apply bracketed_plain. }
  assert (∀ v s', uthread_mutex_lock s = Returns v s' → bracketed s s') as Hlock.
  { intros v s' H. unfold uthread_mutex_lock in H. case_bool_decide.
    - injection H as <- <-. by apply bracketed_plain.
    - case_match.
      + by apply switch_threads_never_returns in H.
      + injection H as <- <-. by apply bracketed_plain. }
  assert (∀ v s', uthread_mutex_unlock s = Returns v s' → bracketed s s') as Hunlock.
  { intros v s' H. unfold uthread_mutex_unlock in H. case_match.
    - injection H as <- <-. by apply bracketed_plain.
    - injection H as <- <-. by apply bracketed_plain. }
  assert (∀ tid v s', tid ∈ dom (threads (threadsCollectionManager s)) →
            uthread_get_quantums tid s = Returns v s' → bracketed s s') as Hget.
  { intros tid v s' [t Ht]%elem_of_dom H. unfold uthread_get_quantums in H.
    rewrite manager_mask_time_signal in H. unfold contains in H.
    rewrite bool_decide_eq_true_2 in H by done. simpl in H.
    rewrite (get_thread_live _ _ _ Ht) in H.
    injection H as <- <-. by apply bracketed_plain. }
  assert (∀ q v s', uthread_init q s = Returns v s' → mask_untouched s s') as Hinit.
  { intros q v s' H. unfold uthread_init in H. case_match; by injection H as <- <-. }
  assert (∀ f v s', uthread_spawn f s = Returns v s' → mask_untouched s s') as Hspawn.
  { intros f v s' H. unfold uthread_spawn in H. case_match. by injection H as <- <-. }
  do 7 (split; [done|]).
  split; [by intros v s' [= <- <-]|]. split; [by intros v s' [= <- <-]|].
  intros e s' HI Hm He Hp.
  pose proof (proj2 (Inv_mask_time_signal SIG_BLOCK s) HI) as HIb.
  destruct e; unfold perform in Hp.
  - destruct (uthread_spawn f s) as [v s1| | | |] eqn:E; try done.
    + apply (inj Some) in Hp as <-. destruct (Hspawn _ _ _ E) as [_ ->]. done.
    + unfold uthread_spawn in E. by case_match.
  - destruct (uthread_terminate tid s) as [v s1|s1| | |] eqn:E; try done;
      apply (inj Some) in Hp as <-.
    + by destruct (Hterm _ _ _ E).
    + unfold uthread_terminate in E. case_bool_decide; [done|]. case_match; [done|].
      case_bool_decide as Hc; [|done].
      eapply (sigmask_switch_threads_mid_quantum (A:=Z)); [| |by rewrite E]; [done|].
      intros s2 Hmid. apply Inv_delete_thread_limbo. revert Hmid.
      unfold set_timer, get_curr_id in *. by rewrite <- Hc.
  - destruct (uthread_block tid s) as [v s1|s1| | |] eqn:E; try done;
      apply (inj Some) in Hp as <-.
    + by destruct (Hblock _ _ _ E).
    + unfold uthread_block in E. case_match; [done|].
      case_bool_decide as Hc; [|done].
      eapply (sigmask_switch_threads_mid_quantum (A:=Z)); [| |by rewrite E]; [done|].
      intros s2 Hmid. apply Inv_block_limbo. revert Hmid.
      unfold set_timer, get_curr_id in *. by rewrite Hc.
  - destruct (uthread_resume tid s) as [v s1|s1| | |] eqn:E; try done;
      apply (inj Some) in Hp as <-.
    + by destruct (Hres _ _ _ E).
    + unfold uthread_resume in E. by case_match.
  - destruct (uthread_mutex_lock s) as [v s1|s1| | |] eqn:E; try done;
      apply (inj Some) in Hp as <-.
    + by destruct (Hlock _ _ eq_refl).
    + unfold uthread_mutex_lock in E. case_bool_decide; [done|].
      case_match; [|done].
      eapply (sigmask_switch_threads_mid_quantum (A:=Z)); [| |by rewrite E]; [done|].
      intros s2. apply Inv_wait_for_mutex_limbo.
  - destruct (uthread_mutex_unlock s) as [v s1|s1| | |] eqn:E; try done;
      apply (inj Some) in Hp as <-.
    + by destruct (Hunlock _ _ eq_refl).
    + unfold uthread_mutex_unlock in E. by case_match.
  - by apply (inj Some) in Hp as <-.
  - by apply (inj Some) in Hp as <-.
  - destruct (uthread_get_quantums tid s) as [v s1|s1| | |] eqn:E; try done;
      apply (inj Some) in Hp as <-.
    + by destruct (Hget _ _ _ (He tid eq_refl) E).
    + unfold uthread_get_quantums in E. case_match; [done|].
      by destruct (get_thread _ _).
  - rewrite Hm in Hp. unfold deliver_SIGVTALRM in Hp.
    destruct (time_sig_handler (set_sigmask true s)) as [v s1|s1| | |] eqn:E;
      try done; apply (inj Some) in Hp as <-; [done|].
    unfold time_sig_handler in E. case_match; [done|].
    eapply (sigmask_switch_threads (A:=unit)); [| |by rewrite E]; [done|].
    intros s2. apply Inv_set_as_ready_limbo.
Qed.

Lemma mask_discipline_witness :
  (∀ s', perform (Block 1) one_spawned = Some s' → sigmask s' = false) ∧
  (∀ v s', uthread_get_tid one_spawned = Returns v s' → mask_untouched one_spawned s').
Proof.
  assert (Inv one_spawned) as HI.
  { apply (reachable_by_Inv (λ _, True) 100 4096).
    apply state_after_reachable. vm_compute. eexists. reflexivity. }
  destruct (mask_discipline one_spawned)
    as (_ & _ & _ & _ & _ & _ & _ & Htid & _ & Hrun).
  split.
  - intros s'. apply (Hrun (Block 1) s' HI eq_refl). intros tid H. discriminate H.
  - exact Htid.
Defined.

(** C3 as stated fails: [uthread_get_tid] reads the running id and makes no
    call of [sigprocmask] at all. *)
Lemma uthread_get_tid_makes_no_mask_call :
  uthread_get_tid just_initialised = Returns 0 just_initialised ∧
  ¬ bracketed just_initialised just_initialised.
Proof.
  split; [reflexivity|]. intros [[mid Hmid] _].
  vm_compute in Hmid. discriminate Hmid.
Qed.

(** The path of [uthread_get_quantums] for an unknown id returns with
    SIGVTALRM still blocked. *)
Lemma uthread_get_quantums_unknown_id :
  ∃ s', uthread_get_quantums 5 just_initialised = Returns (-1) s' ∧
        sigmask just_initialised = false ∧ sigmask s' = true ∧
        sig_log s' = sig_log just_initialised ++ [SIG_BLOCK].
Proof. eexists. split; [vm_compute; reflexivity|]. done. Qed.

(** * Threads that have not run yet *)

Lemma new_thread_update_other (tid n c : Z) (g : Thread → Thread) (m : Manager) :
  c ≠ tid → new_thread tid n m → new_thread tid n (update_thread c g m).
Proof.
  intros Hne Ha t. unfold update_thread, get_thread.
  destruct (threads m !! c); simpl; rewrite !lookup_insert_ne by done; apply Ha.
Qed.

Lemma unstarted_of_new_thread (tid : Z) (m : Manager) :
  curr_thread_id m ≠ tid → new_thread tid 0 m → unstarted tid m.
Proof. intros Hne Ha. unfold unstarted. by rewrite bool_decide_eq_false_2. Qed.

Lemma new_thread_of_unstarted (tid : Z) (m : Manager) :
  curr_thread_id m ≠ tid → unstarted tid m → new_thread tid 0 m.
Proof. intros Hne Ha. unfold unstarted in Ha. by rewrite bool_decide_eq_false_2 in Ha. Qed.

Lemma unstarted_incr_current (tid : Z) (m : Manager) :
  curr_thread_id m ∈ dom (threads m) → new_thread tid 0 m →
  unstarted tid (update_thread (curr_thread_id m) incr_quantums m).
Proof.
  intros [tc Hc]%elem_of_dom Ha t. rewrite (update_thread_live _ _ _ _ Hc). simpl.
  case_bool_decide as Hcur.
  - rewrite Hcur in *. rewrite lookup_insert_eq. intros [= <-]. simpl.
    destruct (Ha tc Hc) as [Hf ->]. done.
  - rewrite lookup_insert_ne by done. apply Ha.
Qed.

Lemma unstarted_switch_threads_body (tid : Z) (site : ProgramPoint) (h : State → State)
    (s s' : State) :
  Inv s → curr_thread_id (threadsCollectionManager s) ≠ tid →
  unstarted tid (threadsCollectionManager s) →
  (∀ s1, inv_mid site (curr_thread_id (threadsCollectionManager s))
           (threadsCollectionManager s1) → Inv (h s1)) →
  (∀ s1, new_thread tid 0 (threadsCollectionManager s1) →
         new_thread tid 0 (threadsCollectionManager (h s1))) →
  switch_threads_body site h s = Some s' →
  unstarted tid (threadsCollectionManager s').
Proof.
  intros HI Hne Ha Hh1 Hh2 Hb. apply new_thread_of_unstarted in Ha; [|done].
  unfold switch_threads_body in Hb. simpl in Hb.
  destruct (set_next_thread_as_running _) as [m1|] eqn:En; [|done].
  injection Hb as <-. simpl.
  destruct (inv_save_context _ _ _ _ HI En) as [Hmid _].
  match goal with |- context [h ?x] => set (s1 := x) in * end.
  apply unstarted_incr_current.
  - specialize (Hh1 s1 Hmid). by destruct Hh1 as [[] _].
  - apply Hh2. unfold s1. simpl.
    unfold set_next_thread_as_running in En.
    destruct (readyQueue _); [done|]. injection En as <-.
    by apply new_thread_update_other.
Qed.

Lemma new_thread_delete_thread (tid n c : Z) (s : State) :
  new_thread tid n (threadsCollectionManager s) →
  new_thread tid n (threadsCollectionManager (delete_thread c s)).
Proof.
  intros Ha t. unfold delete_thread. case_bool_decide; simpl;
    rewrite ?threads_advance_mutex_line; simpl;
    intros [_ Ht]%lookup_delete_Some; by apply Ha.
Qed.

Lemma curr_thread_id_delete_thread (c : Z) (s : State) :
  curr_thread_id (threadsCollectionManager (delete_thread c s)) =
  curr_thread_id (threadsCollectionManager s).
Proof.
  unfold delete_thread. case_bool_decide; simpl; [|done].
  by rewrite curr_thread_id_advance_mutex_line.
Qed.

Lemma curr_thread_id_set_as_ready (c : Z) (m : Manager) :
  curr_thread_id (set_as_ready c m) = curr_thread_id m.
Proof. unfold set_as_ready. by case_match. Qed.

Lemma new_thread_set_as_ready (tid n c : Z) (s : State) :
  new_thread tid n (threadsCollectionManager s) →
  new_thread tid n (threadsCollectionManager (with_manager (set_as_ready c) s)).
Proof. unfold new_thread. simpl. by rewrite threads_set_as_ready. Qed.

Lemma unstarted_siglongjmp {A : Type} (tid : Z) (fuel : nat) (s s' : State) :
  Inv s → unstarted tid (threadsCollectionManager s) →
  steady (siglongjmp (A:=A) fuel s) = Some s' →
  unstarted tid (threadsCollectionManager s').
Proof.
  revert s. induction fuel as [|fuel IH]; intros s HI Ha Hs;
    destruct (current_thread_live s HI) as (t & Ht & Hg & [Hok1 Hok2]);
    simpl in Hs; rewrite Hg in Hs;
    destruct (jmp_pc (env t)) eqn:Epc; try done;
    try (by apply (inj Some) in Hs as <-); try (by destruct (Hok1 tid0)).
  - destruct (locked _); [done|]. by apply (inj Some) in Hs as <-.
  - destruct (locked _); [|by apply (inj Some) in Hs as <-].
    case_match eqn:Eb; [|done].
    assert (curr_thread_id (threadsCollectionManager s) ≠ tid) as Hne.
    { intros Hc. rewrite Hc in Ht. destruct (Ha t Ht) as [[f Hf] _]. congruence. }
    apply IH in Hs; [done| |].
    + eapply Inv_switch_threads_body; [| |exact Eb]; [done|].
      intros s1. apply Inv_wait_for_mutex_limbo.
    + eapply unstarted_switch_threads_body; [| | | | |exact Eb]; try done.
      intros s1. apply Inv_wait_for_mutex_limbo.
Qed.

Lemma unstarted_switch_threads {A : Type} (tid : Z) (site : ProgramPoint) (h : State → State)
    (s s' : State) :
  Inv s → curr_thread_id (threadsCollectionManager s) ≠ tid →
  unstarted tid (threadsCollectionManager s) →
  (∀ s1, inv_mid site (curr_thread_id (threadsCollectionManager s))
           (threadsCollectionManager s1) → Inv (h s1)) →
  (∀ s1, new_thread tid 0 (threadsCollectionManager s1) →
         new_thread tid 0 (threadsCollectionManager (h s1))) →
  steady (switch_threads (A:=A) site h s) = Some s' →
  unstarted tid (threadsCollectionManager s').
Proof.
  intros HI Hne Ha Hh1 Hh2 Hs. unfold switch_threads in Hs. case_match eqn:Eb; [|done].
  eapply unstarted_siglongjmp; [| |exact Hs].
  - by eapply Inv_switch_threads_body.
  - by eapply unstarted_switch_threads_body.
Qed.

Lemma unstarted_mask_time_signal (tid : Z) (how : SigHow) (s : State) :
  unstarted tid (threadsCollectionManager (mask_time_signal how s)) ↔
  unstarted tid (threadsCollectionManager s).
Proof. by rewrite manager_mask_time_signal. Qed.

Lemma unstarted_perform (tid : Z) (e : Event) (s s' : State) :
  Inv s → curr_thread_id (threadsCollectionManager s) ≠ tid →
  unstarted tid (threadsCollectionManager s) →
  perform e s = Some s' →
  unstarted tid (threadsCollectionManager s').
Proof.
  intros HI Hne Ha Hp.
  pose proof (new_thread_of_unstarted _ _ Hne Ha) as Ha0.
  pose proof (proj2 (Inv_mask_time_signal SIG_BLOCK s) HI) as HIb.
  pose proof (proj2 (unstarted_mask_time_signal tid SIG_BLOCK s) Ha) as Hab.
  assert (curr_thread_id (threadsCollectionManager (mask_time_signal SIG_BLOCK s)) ≠ tid)
    as Hneb by (by rewrite manager_mask_time_signal).
  destruct e; unfold perform in Hp.
  - unfold uthread_spawn, create_thread in Hp.
    destruct (set_begin _) as [i|] eqn:E; apply (inj Some) in Hp as <-; [|done].
    apply unstarted_of_new_thread; [done|].
    intros t. simpl. destruct (decide (i = tid)) as [->|Hi].
    + rewrite lookup_insert_eq. intros [= <-]. split; [by eexists|done].
    + rewrite lookup_insert_ne by done. apply Ha0.
  - unfold uthread_terminate in Hp.
    case_bool_decide; [done|].
    case_match; [apply (inj Some) in Hp as <-; by apply unstarted_mask_time_signal|].
    case_bool_decide as Hc.
    + eapply (unstarted_switch_threads (A:=Z)); [| | | | |exact Hp]; try done.
      * intros s1 Hmid. apply Inv_delete_thread_limbo. revert Hmid.
        unfold set_timer, get_curr_id in *. by rewrite <- Hc.
      * intros s1. apply new_thread_delete_thread.
    + apply (inj Some) in Hp as <-. apply unstarted_mask_time_signal.
      apply unstarted_of_new_thread.
      * by rewrite curr_thread_id_delete_thread.
      * apply new_thread_delete_thread. by rewrite manager_mask_time_signal.
  - unfold uthread_block in Hp.
    case_match; [apply (inj Some) in Hp as <-; by apply unstarted_mask_time_signal|].
    case_bool_decide as Hc.
    + eapply (unstarted_switch_threads (A:=Z)); [| | | | |exact Hp]; try done.
      intros s1 Hmid. apply Inv_block_limbo. revert Hmid.
      unfold set_timer, get_curr_id in *. by rewrite Hc.
    + apply (inj Some) in Hp as <-. by apply unstarted_mask_time_signal.
  - unfold uthread_resume, resume in Hp.
    case_match eqn:Er. apply (inj Some) in Hp as <-. apply unstarted_mask_time_signal.
    case_match; injection Er as <- <-; [|done].
    apply unstarted_of_new_thread.
    + simpl. rewrite curr_thread_id_set_as_ready. simpl.
      by rewrite ?manager_mask_time_signal.
    + unfold new_thread. simpl. rewrite threads_set_as_ready. simpl.
      by rewrite ?manager_mask_time_signal.
  - unfold uthread_mutex_lock in Hp.
    case_bool_decide; [apply (inj Some) in Hp as <-; by apply unstarted_mask_time_signal|].
    case_match; [|apply (inj Some) in Hp as <-; by apply unstarted_mask_time_signal].
    eapply (unstarted_switch_threads (A:=Z)); [| | | | |exact Hp]; try done.
    intros s1. apply Inv_wait_for_mutex_limbo.
  - unfold uthread_mutex_unlock in Hp.
    case_match; apply (inj Some) in Hp as <-; apply unstarted_mask_time_signal; [done|].
    apply unstarted_of_new_thread.
    + simpl. rewrite curr_thread_id_advance_mutex_line.
      by rewrite ?manager_mask_time_signal.
    + unfold new_thread. simpl. rewrite threads_advance_mutex_line.
      by rewrite ?manager_mask_time_signal.
  - by apply (inj Some) in Hp as <-.
  - by apply (inj Some) in Hp as <-.
  - unfold uthread_get_quantums in Hp.
    case_match eqn:Ec; [by apply (inj Some) in Hp as <-|].
    apply negb_false_iff, bool_decide_eq_true in Ec as [t Ht].
    rewrite (get_thread_live _ _ _ Ht) in Hp. apply (inj Some) in Hp as <-.
    by apply unstarted_mask_time_signal.
  - case_match; [done|]. unfold deliver_SIGVTALRM in Hp.
    assert (∀ s1, steady (time_sig_handler (set_sigmask true s)) = Some s1 →
                  unstarted tid (threadsCollectionManager s1)) as Hh.
    { intros s1 Hs1. unfold time_sig_handler in Hs1. case_match eqn:Ew.
      - apply (inj Some) in Hs1 as <-. simpl.
        apply unstarted_incr_current; [|done]. by destruct HI as [[] _].
      - eapply (unstarted_switch_threads (A:=unit)); [| | | | |exact Hs1]; try done.
        + intros s2. apply Inv_set_as_ready_limbo.
        + intros s2. apply new_thread_set_as_ready. }
    destruct (time_sig_handler (set_sigmask true s)) as [v s1|s1| | |] eqn:Eh;
      try done; apply (inj Some) in Hp as <-.
    + enough (unstarted tid (threadsCollectionManager s1)) by done. by apply Hh.
    + by apply Hh.
Qed.

Lemma never_runs_unstarted (tid : Z) (s s' : State) :
  never_runs tid s s' →
  Inv s → unstarted tid (threadsCollectionManager s) →
  curr_thread_id (threadsCollectionManager s) ≠ tid →
  Inv s' ∧ unstarted tid (threadsCollectionManager s') ∧
  curr_thread_id (threadsCollectionManager s') ≠ tid.
Proof.
  intros Hnr HI Ha Hc. induction Hnr as [|e s1 s2 Hnr IH Hp Hcur]; [done|].
  destruct IH as (HIa & Haa & Hca). split; [by eapply Inv_perform|].
  split; [|done]. by eapply unstarted_perform.
Qed.

Lemma uthread_get_quantums_live (tid : Z) (s : State) (t : Thread) :
  threads (threadsCollectionManager s) !! tid = Some t →
  ∃ s', uthread_get_quantums tid s = Returns (int_of_size_t (quantums t)) s'.
Proof.
  intros Ht. unfold uthread_get_quantums. rewrite manager_mask_time_signal.
  unfold contains. rewrite bool_decide_eq_true_2 by done. simpl.
  rewrite (get_thread_live _ _ _ Ht). by eexists.
Qed.

(** C10. The counter of the thread created by a successful [uthread_spawn]
    is 0 at creation, and [uthread_get_quantums] returns 0 for it for as long
    as it has not been the running thread. The event that makes it the
    running thread for the first time, a context switch, counts its first
    quantum: the query then returns 1. *)
Theorem unscheduled_thread_quantums (MAX_THREAD_NUM STACK_SIZE : Z) (f : EntryPoint)
    (s s1 s2 : State) (tid : Z) :
  reachable MAX_THREAD_NUM STACK_SIZE s →
  uthread_spawn f s = Returns tid s1 →
  tid ≠ -1 →
  never_runs tid s1 s2 →
  tid ∈ dom (threads (threadsCollectionManager s2)) →
  (∃ t, threads (threadsCollectionManager s1) !! tid = Some t ∧ quantums t = 0) ∧
  (∃ t, threads (threadsCollectionManager s2) !! tid = Some t ∧ quantums t = 0) ∧
  (∃ s3, uthread_get_quantums tid s2 = Returns 0 s3) ∧
  (∀ e s3, perform e s2 = Some s3 →
           curr_thread_id (threadsCollectionManager s3) = tid →
           ∃ s4, uthread_get_quantums tid s3 = Returns 1 s4).
Proof.
  intros Hr Hsp Hne Hnr Hlive.
  assert (Inv s) as HI by (by eapply reachable_by_Inv).
  assert (Inv s1) as HI1.
  { apply (Inv_perform (Spawn f) s); [done|]. unfold perform. by rewrite Hsp. }
  unfold uthread_spawn, create_thread in Hsp.
  destruct (set_begin _) as [i|] eqn:E; [|by injection Hsp as <- _].
  injection Hsp as -> <-. apply set_begin_Some in E as [Hi _].
  assert (curr_thread_id (threadsCollectionManager s) ≠ tid) as Hc.
  { intros <-. destruct HI as [[] _]. set_solver. }
  split.
  { eexists. simpl. by rewrite lookup_insert_eq. }
  destruct (never_runs_unstarted _ _ _ Hnr HI1) as (HI2 & Ha2 & Hc2); [|done|].
  { apply unstarted_of_new_thread; [done|].
    intros t. simpl. rewrite lookup_insert_eq. intros [= <-]. split; [by eexists|done]. }
  apply elem_of_dom in Hlive as [t Ht].
  destruct (new_thread_of_unstarted _ _ Hc2 Ha2 t Ht) as [_ Hq0].
  split; [by exists t|]. split.
  { destruct (uthread_get_quantums_live _ _ _ Ht) as [s3 Hs3].
    exists s3. by rewrite Hs3, Hq0. }
  intros e s3 Hp Hc3.
  pose proof (unstarted_perform _ _ _ _ HI2 Hc2 Ha2 Hp) as Ha3.
  pose proof (Inv_perform _ _ _ HI2 Hp) as HI3.
  destruct (current_thread_live s3 HI3) as (t3 & Ht3 & _).
  rewrite Hc3 in Ht3. destruct (Ha3 t3 Ht3) as [_ Hq1].
  rewrite bool_decide_eq_true_2 in Hq1 by done.
  destruct (uthread_get_quantums_live _ _ _ Ht3) as [s4 Hs4].
  exists s4. by rewrite Hs4, Hq1.
Qed.

Lemma run_avoiding_never_runs (tid : Z) (es : list Event) (s0 s s' : State) :
  never_runs tid s0 s → run_avoiding tid es s = Some s' → never_runs tid s0 s'.
Proof.
  revert s. induction es as [|e es IH]; intros s Hnr Hrun; simpl in Hrun.
  - by injection Hrun as <-.
  - destruct (perform e s) as [s1|] eqn:E; [|done].
    case_bool_decide as Hc; [|done].
    apply (IH s1); [|done]. by eapply never_runs_step.
Qed.

Lemma unscheduled_thread_quantums_witness :
  (∃ t, threads (threadsCollectionManager one_spawned) !! 1 = Some t ∧ quantums t = 0) ∧
  (∃ t, threads (threadsCollectionManager unscheduled_state) !! 1 = Some t ∧ quantums t = 0) ∧
  (∃ s3, uthread_get_quantums 1 unscheduled_state = Returns 0 s3) ∧
  (∀ e s3, perform e unscheduled_state = Some s3 →
           curr_thread_id (threadsCollectionManager s3) = 1 →
           ∃ s4, uthread_get_quantums 1 s3 = Returns 1 s4).
Proof.
  apply (unscheduled_thread_quantums 100 4096 7 just_initialised one_spawned
           unscheduled_state 1).
  - apply state_after_reachable. vm_compute. eexists. reflexivity.
  - vm_compute. reflexivity.
  - discriminate.
  - apply (run_avoiding_never_runs 1 [MutexLock; Block 1; TimerTick; MutexUnlock]
             one_spawned one_spawned).
    + apply never_runs_refl.
    + vm_compute. reflexivity.
  - apply (bool_decide_unpack _). vm_compute. exact I.
Defined.

Example total_quantums_of_unscheduled_state :
  total_quantums unscheduled_state = 2 ∧
  uthread_get_tid unscheduled_state = Returns 0 unscheduled_state.
Proof. vm_compute. done. Qed.

(** * No call runs out of fuel *)

Lemma uthread_calls_fuel (s : State) (tid : Z) :
  uthread_terminate tid s ≠ OutOfFuel ∧
  uthread_block tid s ≠ OutOfFuel ∧
  uthread_mutex_lock s ≠ OutOfFuel ∧
  time_sig_handler s ≠ OutOfFuel.
Proof.
  repeat split.
  - unfold uthread_terminate. repeat case_match; try done. apply switch_threads_fuel.
  - unfold uthread_block. repeat case_match; try done. apply switch_threads_fuel.
  - unfold uthread_mutex_lock. repeat case_match; try done. apply switch_threads_fuel.
  - unfold time_sig_handler. case_match; [done|]. apply switch_threads_fuel.
Qed.

(** * The scenarios of the specification, run on the model *)

(** Round-robin: after two spawns the ticks rotate 1, 2, 0, 1, 2, 0. *)
Example scenario_round_robin :
  running_ids [Spawn 7; Spawn 8; TimerTick; TimerTick; TimerTick; TimerTick; TimerTick;
               TimerTick] just_initialised
  = [0; 0; 1; 2; 0; 1; 2; 0].
Proof. vm_compute. reflexivity. Qed.

(** Quantum accounting. *)
Example scenario_quantum_accounting :
  uthread_get_total_quantums (state_after 100 4096 100000 [Spawn 7; TimerTick])
    = Returns 2 (state_after 100 4096 100000 [Spawn 7; TimerTick]) ∧
  get_quantums_after [Spawn 7; TimerTick] 0 = Some 1 ∧
  get_quantums_after [Spawn 7; TimerTick] 1 = Some 1 ∧
  total_quantums (state_after 100 4096 100000 [Spawn 7; TimerTick; TimerTick]) = 3 ∧
  get_quantums_after [Spawn 7; TimerTick; TimerTick] 0 = Some 2.
Proof. vm_compute. done. Qed.

(** Blocking the main thread is refused; a blocked peer does not run until
    it is resumed. *)
Example scenario_block_resume :
  (∃ s', uthread_block 0 one_spawned = Returns (-1) s') ∧
  running_ids [Block 1; TimerTick; Resume 1; TimerTick] one_spawned = [0; 0; 0; 1].
Proof. split; [eexists|]; vm_compute; reflexivity. Qed.

(** Mutex contention: thread 1 holds the mutex, main asks for it and yields;
    after thread 1 unlocks, main takes the mutex when it runs next. *)
Example scenario_mutex_contention :
  running_ids [Spawn 7; TimerTick; MutexLock; TimerTick; MutexLock; MutexUnlock; TimerTick]
    just_initialised = [0; 1; 1; 0; 1; 1; 0] ∧
  mutex (state_after 100 4096 100000
           [Spawn 7; TimerTick; MutexLock; TimerTick; MutexLock; MutexUnlock; TimerTick])
    = {| locked := true; locking_thread := 0 |}.
Proof. vm_compute. done. Qed.

(** Self-termination returns the id to the pool. *)
Example scenario_self_terminate :
  uthread_spawn 8 (state_after 100 4096 100000 self_terminate_run)
  = Returns 1 (state_after 100 4096 100000 (self_terminate_run ++ [Spawn 8])).
Proof. vm_compute. reflexivity. Qed.

(** The holder of the mutex terminates itself while the only other thread
    waits for the mutex: the ready queue is empty when [switch_threads] takes
    its front, before the deletion would have admitted the waiter. *)
Example holder_terminates_itself_with_empty_ready_queue :
  uthread_terminate 1
    (state_after 100 4096 100000 [Spawn 7; TimerTick; MutexLock; TimerTick; MutexLock])
  = Undefined.
Proof. vm_compute. reflexivity. Qed.

(** A thread that calls [uthread_mutex_lock] while every other thread is out
    of the ready queue leaves defined behaviour: the ready queue is empty
    when [switch_threads] takes its front. *)
Example lock_with_empty_ready_queue :
  uthread_mutex_lock
    (state_after 100 4096 100000 [Spawn 7; TimerTick; MutexLock; TimerTick; Block 1])
  = Undefined.
Proof. vm_compute. reflexivity. Qed.

(** * Invariants by induction on runs, in general *)

Lemma set_next_after_pick (site : ProgramPoint) (b : bool) (m : Manager) (next : Z)
    (rest : list Z) :
  readyQueue m = next :: rest →
  set_next_thread_as_running
    (update_thread (curr_thread_id m) (set_env {| jmp_pc := site; saved_mask := b |}) m)
  = Some (after_pick site b next rest m).
Proof.
  intros Hq. unfold set_next_thread_as_running. rewrite readyQueue_update_thread, Hq.
  reflexivity.
Qed.

Lemma switch_threads_body_Some (site : ProgramPoint) (h : State → State) (s s' : State) :
  switch_threads_body site h s = Some s' →
  ∃ next rest, readyQueue (threadsCollectionManager s) = next :: rest.
Proof.
  unfold switch_threads_body. simpl. unfold set_next_thread_as_running.
  rewrite readyQueue_update_thread.
  destruct (readyQueue (threadsCollectionManager s)) as [|n r]; [done|]. by eexists _, _.
Qed.

Section preservation.
(** A property [P] of the collection and the mutex that every elementary
    operation of the library keeps, under the guards the callers check. *)
Variable P : Manager → Mutex → Prop.

Hypothesis P_pick : ∀ site b m mu next rest,
  inv m → site ≠ NoContext → P m mu → readyQueue m = next :: rest →
  P (after_pick site b next rest m) mu.
Hypothesis P_incr : ∀ m mu,
  curr_thread_id m ∈ dom (threads m) → P m mu →
  P (update_thread (curr_thread_id m) incr_quantums m) mu.
Hypothesis P_set_as_ready : ∀ c m mu, P m mu → P (set_as_ready c m) mu.
Hypothesis P_block : ∀ c m mu,
  c ≠ 0 → c ∈ dom (threads m) → P m mu → P (block c m) mu.
Hypothesis P_wait : ∀ c m mu, P m mu → P (wait_for_mutex c m) mu.
Hypothesis P_delete : ∀ c s,
  c ≠ 0 → c ∈ dom (threads (threadsCollectionManager s)) →
  c ≠ curr_thread_id (threadsCollectionManager s) →
  P (threadsCollectionManager s) (mutex s) →
  P (threadsCollectionManager (delete_thread c s)) (mutex (delete_thread c s)).
Hypothesis P_take : ∀ m mu,
  inv m → P m mu → locked mu = false →
  P m {| locked := true; locking_thread := curr_thread_id m |}.
Hypothesis P_unlock : ∀ m mu,
  P m mu → locked mu = true → locking_thread mu = curr_thread_id m →
  P (advance_mutex_line m) unlocked.
Hypothesis P_create : ∀ f m mu i m',
  inv m → P m mu → create_thread f m = (i, m') → P m' mu.
Hypothesis P_unblock : ∀ tid m mu,
  P m mu → P (set_blocked (blocked m ∖ {[ tid ]}) m) mu.

Lemma kept_switch_threads_body (site : ProgramPoint) (h : State → State) (s s' : State) :
  Inv s → P (threadsCollectionManager s) (mutex s) → site ≠ NoContext →
  (∀ s1, inv_mid site (curr_thread_id (threadsCollectionManager s))
           (threadsCollectionManager s1) → Inv (h s1)) →
  (∀ s1, inv_mid site (curr_thread_id (threadsCollectionManager s))
           (threadsCollectionManager s1) →
         P (threadsCollectionManager s1) (mutex s1) →
         P (threadsCollectionManager (h s1)) (mutex (h s1))) →
  switch_threads_body site h s = Some s' →
  P (threadsCollectionManager s') (mutex s').
Proof.
  intros HI HP Hsite Hh1 Hh2 Hb.
  destruct (switch_threads_body_Some _ _ _ _ Hb) as (next & rest & Hq).
  rewrite (switch_threads_body_pick _ _ _ _ _ Hq) in Hb. injection Hb as <-.
  pose proof (set_next_after_pick site (sigmask s) _ _ _ Hq) as En.
  destruct (inv_save_context _ _ _ _ HI En) as [Hmid _].
  match goal with |- context [h ?x] => set (s1 := x) in * end.
  assert (P (threadsCollectionManager s1) (mutex s1)) as HP1.
  { unfold s1. simpl. by apply P_pick. }
  specialize (Hh1 s1 Hmid). specialize (Hh2 s1 Hmid HP1).
  simpl. apply P_incr; [|done]. destruct Hh1 as [Hw _]. by destruct Hw.
Qed.

Lemma kept_siglongjmp {A : Type} (fuel : nat) (s s' : State) :
  Inv s → P (threadsCollectionManager s) (mutex s) →
  steady (siglongjmp (A:=A) fuel s) = Some s' →
  P (threadsCollectionManager s') (mutex s').
Proof.
  revert s. induction fuel as [|fuel IH]; intros s HI HP Hs;
    destruct (current_thread_live s HI) as (t & Ht & Hg & [Hok1 Hok2]);
    simpl in Hs; rewrite Hg in Hs;
    destruct (jmp_pc (env t)) eqn:Epc; try done;
    try (by apply (inj Some) in Hs as <-); try (by destruct (Hok1 tid)).
  - destruct (locked (mutex s)) eqn:El; [done|]. apply (inj Some) in Hs as <-.
    unfold take_mutex. rewrite manager_mask_time_signal, mutex_mask_time_signal.
    simpl. by apply (P_take _ (mutex s)).
  - destruct (locked (mutex s)) eqn:El.
    + case_match eqn:Eb; [|done].
      apply IH in Hs; [done| |].
      * eapply Inv_switch_threads_body; [| |exact Eb]; [done|].
        intros s1. apply Inv_wait_for_mutex_limbo.
      * eapply kept_switch_threads_body; [| | | | |exact Eb]; try done.
        -- intros s1. apply Inv_wait_for_mutex_limbo.
        -- intros s1 _ HP1. simpl. by apply P_wait.
    + apply (inj Some) in Hs as <-.
      unfold take_mutex. rewrite manager_mask_time_signal, mutex_mask_time_signal.
      simpl. by apply (P_take _ (mutex s)).
Qed.

Lemma kept_switch_threads {A : Type} (site : ProgramPoint) (h : State → State)
    (s s' : State) :
  Inv s → P (threadsCollectionManager s) (mutex s) → site ≠ NoContext →
  (∀ s1, inv_mid site (curr_thread_id (threadsCollectionManager s))
           (threadsCollectionManager s1) → Inv (h s1)) →
  (∀ s1, inv_mid site (curr_thread_id (threadsCollectionManager s))
           (threadsCollectionManager s1) →
         P (threadsCollectionManager s1) (mutex s1) →
         P (threadsCollectionManager (h s1)) (mutex (h s1))) →
  steady (switch_threads (A:=A) site h s) = Some s' →
  P (threadsCollectionManager s') (mutex s').
Proof.
  intros HI HP Hsite Hh1 Hh2 Hs. unfold switch_threads in Hs.
  case_match eqn:Eb; [|done].
  eapply kept_siglongjmp; [| |exact Hs].
  - by eapply Inv_switch_threads_body.
  - by eapply kept_switch_threads_body.
Qed.

Lemma kept_perform (e : Event) (s s' : State) :
  Inv s → P (threadsCollectionManager s) (mutex s) →
  perform e s = Some s' →
  P (threadsCollectionManager s') (mutex s').
Proof.
  intros HI HP Hp.
  pose proof (proj2 (Inv_mask_time_signal SIG_BLOCK s) HI) as HIb.
  assert (P (threadsCollectionManager (mask_time_signal SIG_BLOCK s))
            (mutex (mask_time_signal SIG_BLOCK s))) as HPb.
  { by rewrite manager_mask_time_signal, mutex_mask_time_signal. }
  assert (∀ s1, P (threadsCollectionManager s1) (mutex s1) →
                P (threadsCollectionManager (mask_time_signal SIG_UNBLOCK s1))
                  (mutex (mask_time_signal SIG_UNBLOCK s1))) as Hun.
  { intros s1 H1. by rewrite manager_mask_time_signal, mutex_mask_time_signal. }
  destruct e; unfold perform in Hp.
  - unfold uthread_spawn in Hp. destruct (create_thread _ _) as [i m'] eqn:Ec.
    apply (inj Some) in Hp as <-. simpl. by eapply P_create.
  - unfold uthread_terminate in Hp.
    case_bool_decide as H0; [done|].
    case_match eqn:Ect; [apply (inj Some) in Hp as <-; by apply Hun|].
    apply negb_false_iff, bool_decide_eq_true, elem_of_dom in Ect.
    case_bool_decide as Hc.
    + eapply (kept_switch_threads (A:=Z)); [| | | | |exact Hp]; try done.
      * intros s1 Hmid. apply Inv_delete_thread_limbo. revert Hmid.
        unfold set_timer, get_curr_id in *. by rewrite <- Hc.
      * intros s1 (Hw & _ & t & Ht & _) HP1. apply P_delete; try done.
        -- unfold set_timer, get_curr_id in *. rewrite Hc. by apply elem_of_dom_2 in Ht.
        -- unfold set_timer, get_curr_id in *. rewrite Hc.
           destruct Hw as [_ _ _ Hout _ _ _ _]. set_solver.
    + apply (inj Some) in Hp as <-. apply Hun. by apply P_delete.
  - unfold uthread_block in Hp.
    case_match eqn:Eg; [apply (inj Some) in Hp as <-; by apply Hun|].
    apply orb_false_elim in Eg as [H0 Hc].
    apply bool_decide_eq_false in H0.
    apply negb_false_iff, bool_decide_eq_true, elem_of_dom in Hc.
    case_bool_decide as Hcur.
    + eapply (kept_switch_threads (A:=Z)); [| | | | |exact Hp]; try done.
      * intros s1 Hmid. apply Inv_block_limbo. revert Hmid.
        unfold set_timer, get_curr_id in *. by rewrite Hcur.
      * intros s1 (_ & _ & t & Ht & _) HP1. simpl. apply P_block; try done.
        unfold set_timer, get_curr_id in *. rewrite Hcur in Ht.
        by apply elem_of_dom_2 in Ht.
    + apply (inj Some) in Hp as <-. apply Hun. simpl. by apply P_block.
  - unfold uthread_resume, resume in Hp.
    case_match eqn:Er. apply (inj Some) in Hp as <-. apply Hun. simpl.
    case_match; injection Er as <- <-; [|done].
    by apply P_set_as_ready, P_unblock.
  - unfold uthread_mutex_lock in Hp.
    case_bool_decide; [apply (inj Some) in Hp as <-; by apply Hun|].
    case_match eqn:El.
    + eapply (kept_switch_threads (A:=Z)); [| | | | |exact Hp]; try done.
      * intros s1. apply Inv_wait_for_mutex_limbo.
      * intros s1 _ HP1. simpl. by apply P_wait.
    + apply (inj Some) in Hp as <-. unfold take_mutex. apply Hun. simpl.
      by apply (P_take _ (mutex (mask_time_signal SIG_BLOCK s))).
  - unfold uthread_mutex_unlock in Hp.
    case_match eqn:Eg; apply (inj Some) in Hp as <-; apply Hun; [done|].
    apply orb_false_elim in Eg as [Hl Hh].
    apply negb_false_iff in Hl. apply bool_decide_eq_false in Hh.
    simpl. apply (P_unlock _ (mutex (mask_time_signal SIG_BLOCK s))); try done.
    by apply dec_stable.
  - by apply (inj Some) in Hp as <-.
  - by apply (inj Some) in Hp as <-.
  - unfold uthread_get_quantums in Hp.
    case_match eqn:Ec; [by apply (inj Some) in Hp as <-|].
    apply negb_false_iff, bool_decide_eq_true in Ec as [t Ht].
    rewrite (get_thread_live _ _ _ Ht) in Hp. apply (inj Some) in Hp as <-.
    by apply Hun.
  - case_match; [done|]. unfold deliver_SIGVTALRM in Hp.
    assert (∀ s1, steady (time_sig_handler (set_sigmask true s)) = Some s1 →
                  P (threadsCollectionManager s1) (mutex s1)) as Hh.
    { intros s1 Hs1. unfold time_sig_handler in Hs1. case_match eqn:Ew.
      - apply (inj Some) in Hs1 as <-. simpl.
        apply P_incr; [|done]. destruct HI as [Hw _]. by destruct Hw.
      - eapply (kept_switch_threads (A:=unit)); [| | | | |exact Hs1]; try done.
        + intros s2. apply Inv_set_as_ready_limbo.
        + intros s2 _ HP2. simpl. by apply P_set_as_ready. }
    destruct (time_sig_handler (set_sigmask true s)) as [v s1|s1| | |] eqn:Eh;
      try done; apply (inj Some) in Hp as <-.
    + enough (P (threadsCollectionManager s1) (mutex s1)) by done. by apply Hh.
    + by apply Hh.
Qed.

Lemma kept_reachable_by (allowed : Event → Prop) (M S : Z) (s : State) :
  P (Manager_new M S) unlocked →
  reachable_by allowed M S s →
  P (threadsCollectionManager s) (mutex s).
Proof.
  intros H0 Hr. induction Hr as [q s Hq|e s s' Hr IH He Hp].
  - unfold uthread_init in Hq. case_match; [done|]. by injection Hq as <-.
  - eapply kept_perform; [|exact IH|exact Hp]. by eapply reachable_by_Inv.
Qed.
End preservation.

(** * The pool of ids, the main thread, the mutex and the saved contexts *)

Lemma dom_threads_update_thread (tid : Z) (g : Thread → Thread) (m : Manager) :
  tid ∈ dom (threads m) → dom (threads (update_thread tid g m)) = dom (threads m).
Proof.
  intros Hd. destruct (proj1 (elem_of_dom _ _) Hd) as [t Ht].
  rewrite (update_thread_live _ _ _ _ Ht). simpl. rewrite dom_insert_L. set_solver.
Qed.

Lemma blocked_update_thread (tid : Z) (g : Thread → Thread) (m : Manager) :
  blocked (update_thread tid g m) = blocked m.
Proof. unfold update_thread, get_thread. by destruct (threads m !! tid). Qed.

Lemma curr_thread_id_update_thread (tid : Z) (g : Thread → Thread) (m : Manager) :
  curr_thread_id (update_thread tid g m) = curr_thread_id m.
Proof. unfold update_thread, get_thread. by destruct (threads m !! tid). Qed.

Lemma available_ids_set_as_ready (tid : Z) (m : Manager) :
  available_ids (set_as_ready tid m) = available_ids m.
Proof. unfold set_as_ready. by case_match. Qed.

Lemma blocked_set_as_ready (tid : Z) (m : Manager) :
  blocked (set_as_ready tid m) = blocked m.
Proof. unfold set_as_ready. by case_match. Qed.

Lemma blocked_advance_mutex_line (m : Manager) :
  blocked (advance_mutex_line m) = blocked m.
Proof. unfold advance_mutex_line. case_bool_decide; [done|]. by case_match. Qed.

Lemma threads_delete_thread (c : Z) (s : State) :
  threads (threadsCollectionManager (delete_thread c s)) =
  delete c (threads (threadsCollectionManager s)).
Proof.
  unfold delete_thread. case_bool_decide; simpl; [|done].
  by rewrite threads_advance_mutex_line.
Qed.

Lemma blocked_delete_thread (c : Z) (s : State) :
  blocked (threadsCollectionManager (delete_thread c s)) =
  blocked (threadsCollectionManager s) ∖ {[ c ]}.
Proof.
  unfold delete_thread. case_bool_decide; simpl; [|done].
  by rewrite blocked_advance_mutex_line.
Qed.

Lemma mutex_delete_thread (c : Z) (s : State) :
  mutex (delete_thread c s) =
  if bool_decide (locking_thread (mutex s) = c) then unlocked else mutex s.
Proof. unfold delete_thread. simpl. by case_bool_decide. Qed.

Lemma inv_curr_live (m : Manager) : inv m → curr_thread_id m ∈ dom (threads m).
Proof. intros [Hw _]. by destruct Hw. Qed.

Lemma create_thread_cases (f : EntryPoint) (m m' : Manager) (i : Z) :
  create_thread f m = (i, m') →
  (i = FAILURE ∧ m' = m ∧ available_ids m = ∅) ∨
  (i ∈ available_ids m ∧ (∀ y, y ∈ available_ids m → i ≤ y) ∧
   threads m' = <[ i := Thread_spawned i (stack_size m) f ]> (threads m) ∧
   available_ids m' = available_ids m ∖ {[ i ]} ∧
   readyQueue m' = readyQueue m ++ [i] ∧
   blocked m' = blocked m ∧ waiting_fot_mutex m' = waiting_fot_mutex m ∧
   curr_thread_id m' = curr_thread_id m).
Proof.
  unfold create_thread. destruct (set_begin (available_ids m)) as [j|] eqn:E.
  - intros [= <- <-]. right. apply set_begin_Some in E as [Hj Hmin]. done.
  - intros [= <- <-]. left. by apply set_begin_None in E.
Qed.

Lemma reachable_ids_partitioned (allowed : Event → Prop) (M S : Z) (s : State) :
  reachable_by allowed M S s →
  ids_partitioned M (threadsCollectionManager s) (mutex s).
Proof.
  apply kept_reachable_by; unfold ids_partitioned.
  - intros site b m mu next rest Hi _ HP _. unfold after_pick. simpl.
    rewrite dom_threads_update_thread by (by apply inv_curr_live).
    by rewrite available_ids_update_thread.
  - intros m mu Hc HP. by rewrite dom_threads_update_thread, available_ids_update_thread.
  - intros c m mu HP. by rewrite threads_set_as_ready, available_ids_set_as_ready.
  - done.
  - done.
  - intros c s0 _ Hc _ HP.
    rewrite threads_delete_thread, available_ids_delete_thread, dom_delete_L, <- HP.
    apply set_eq. intros x. destruct (decide (x = c)) as [->|]; set_solver.
  - done.
  - intros m mu HP _ _. by rewrite threads_advance_mutex_line, available_ids_advance_mutex_line.
  - intros f m mu i m' _ HP Hc.
    destruct (create_thread_cases _ _ _ _ Hc) as [(_ & -> & _)|(Hi & _ & -> & -> & _)]; [done|].
    rewrite dom_insert_L, <- HP.
    apply set_eq. intros x. destruct (decide (x = i)) as [->|]; set_solver.
  - done.
  - unfold id_pool. simpl. by rewrite dom_singleton_L.
Qed.

Lemma reachable_main_thread_kept (allowed : Event → Prop) (M S : Z) (s : State) :
  reachable_by allowed M S s →
  main_thread_kept (threadsCollectionManager s) (mutex s).
Proof.
  apply kept_reachable_by; unfold main_thread_kept.
  - intros site b m mu next rest Hi _ HP _. unfold after_pick. simpl.
    rewrite dom_threads_update_thread by (by apply inv_curr_live).
    by rewrite blocked_update_thread.
  - intros m mu Hc HP. by rewrite dom_threads_update_thread, blocked_update_thread.
  - intros c m mu HP. by rewrite threads_set_as_ready, blocked_set_as_ready.
  - intros c m mu Hc _ [H1 H2]. simpl. split; [done|]. set_solver.
  - done.
  - intros c s0 Hc _ _ [H1 H2].
    rewrite threads_delete_thread, blocked_delete_thread, dom_delete_L. set_solver.
  - done.
  - intros m mu HP _ _. by rewrite threads_advance_mutex_line, blocked_advance_mutex_line.
  - intros f m mu i m' _ [H1 H2] Hc.
    destruct (create_thread_cases _ _ _ _ Hc)
      as [(_ & -> & _)|(Hi & _ & -> & _ & _ & -> & _)]; [done|].
    rewrite dom_insert_L. set_solver.
  - intros tid m mu [H1 H2]. simpl. set_solver.
  - simpl. rewrite dom_singleton_L. set_solver.
Qed.

Lemma reachable_mutex_consistent (allowed : Event → Prop) (M S : Z) (s : State) :
  reachable_by allowed M S s →
  mutex_consistent (threadsCollectionManager s) (mutex s).
Proof.
  apply kept_reachable_by; unfold mutex_consistent.
  - intros site b m mu next rest Hi _ HP _. unfold after_pick. simpl.
    by rewrite dom_threads_update_thread by (by apply inv_curr_live).
  - intros m mu Hc HP. by rewrite dom_threads_update_thread.
  - intros c m mu HP. by rewrite threads_set_as_ready.
  - done.
  - done.
  - intros c s0 _ _ _ [H1 H2].
    rewrite threads_delete_thread, mutex_delete_thread, dom_delete_L.
    case_bool_decide as Hh; [done|]. split; [done|].
    intros Hl. specialize (H2 Hl). set_solver.
  - intros m mu Hi _ _. simpl. split; [done|]. intros _. by apply inv_curr_live.
  - done.
  - intros f m mu i m' _ [H1 H2] Hc. split; [done|]. intros Hl.
    destruct (create_thread_cases _ _ _ _ Hc) as [(_ & -> & _)|(Hi & _ & -> & _)]; [by apply H2|].
    rewrite dom_insert_L. specialize (H2 Hl). set_solver.
  - done.
  - done.
Qed.


(** * Initialisation *)

(** X1. [uthread_init] fails with -1, changing nothing, exactly when the
    quantum is not positive. Otherwise it returns 0, counts the first
    quantum and stores the period split into seconds and micro-seconds
    ([init_timer]): the two parts give the period back and the micro-seconds
    are below one million. The collection, the mutex and the signal mask are
    left alone. *)
Theorem uthread_init_spec (quantum_usecs : Z) (s : State) :
  (quantum_usecs ≤ 0 → uthread_init quantum_usecs s = Returns (-1) s) ∧
  (0 < quantum_usecs →
     ∃ s' sec usec,
       uthread_init quantum_usecs s = Returns 0 s' ∧
       timer s' = (sec, usec) ∧
       0 ≤ sec ∧ 0 ≤ usec < 1000000 ∧ sec * 1000000 + usec = quantum_usecs ∧
       total_quantums s' = size_t_incr (total_quantums s) ∧
       (total_quantums s = 0 → total_quantums s' = 1) ∧
       threadsCollectionManager s' = threadsCollectionManager s ∧
       mutex s' = mutex s ∧ sigmask s' = sigmask s ∧ sig_log s' = sig_log s).
Proof.
  split.
  - intros Hq. unfold uthread_init. by rewrite (proj2 (Z.leb_le _ _) Hq).
  - intros Hq. unfold uthread_init.
    rewrite (proj2 (Z.leb_gt _ _) Hq).
    eexists _, (Z.quot quantum_usecs 1000000), (Z.rem quantum_usecs 1000000).
    split; [reflexivity|]. split; [reflexivity|].
    split; [apply Z.quot_pos; lia|].
    split; [apply Z.rem_bound_pos; lia|].
    split; [pose proof (Z.quot_rem' quantum_usecs 1000000); lia|].
    split; [reflexivity|]. split; [|done].
    simpl. by intros ->.
Qed.

Lemma uthread_init_spec_witness :
  uthread_init 0 (static_state 100 4096) = Returns (-1) (static_state 100 4096) ∧
  ∃ s' sec usec,
    uthread_init 2500000 (static_state 100 4096) = Returns 0 s' ∧
    timer s' = (sec, usec) ∧
    0 ≤ sec ∧ 0 ≤ usec < 1000000 ∧ sec * 1000000 + usec = 2500000 ∧
    total_quantums s' = size_t_incr (total_quantums (static_state 100 4096)) ∧
    (total_quantums (static_state 100 4096) = 0 → total_quantums s' = 1) ∧
    threadsCollectionManager s' = threadsCollectionManager (static_state 100 4096) ∧
    mutex s' = mutex (static_state 100 4096) ∧
    sigmask s' = sigmask (static_state 100 4096) ∧
    sig_log s' = sig_log (static_state 100 4096).
Proof.
  split.
  - apply (proj1 (uthread_init_spec 0 (static_state 100 4096))). lia.
  - apply (proj2 (uthread_init_spec 2500000 (static_state 100 4096))). lia.
Defined.

(** * The pool of ids and the capacity of the library *)

Lemma elem_of_id_pool (M i : Z) : i ∈ id_pool M ↔ i = 0 ∨ 1 ≤ i < M.
Proof.
  unfold id_pool. rewrite elem_of_union, elem_of_singleton, elem_of_list_to_set, elem_of_seqZ.
  split; intros [?|?]; auto; right; lia.
Qed.




(** With room for two threads, the second spawn after [uthread_init] is
    refused. *)
Example spawn_beyond_capacity :
  uthread_spawn 8 (state_after 2 4096 100000 [Spawn 7])
  = Returns (-1) (state_after 2 4096 100000 [Spawn 7]).
Proof. vm_compute. reflexivity. Qed.

(** * The main thread *)

(** X3. In every reachable state the main thread (id 0) is live, is not
    blocked and its id is not free; so a query of its quantums never takes the
    error path. *)
Theorem main_thread_always_live (MAX_THREAD_NUM STACK_SIZE : Z) (s : State) :
  reachable MAX_THREAD_NUM STACK_SIZE s →
  0 ∈ dom (threads (threadsCollectionManager s)) ∧
  (0 ∉ blocked (threadsCollectionManager s)) ∧
  (0 ∉ available_ids (threadsCollectionManager s)) ∧
  ∃ t s', threads (threadsCollectionManager s) !! 0 = Some t ∧
          uthread_get_quantums 0 s = Returns (int_of_size_t (quantums t)) s'.
Proof.
  intros Hr.
  destruct (reachable_main_thread_kept _ _ _ _ Hr) as [Hlive Hnb].
  pose proof (reachable_by_Inv _ _ _ _ Hr) as [Hwf _].
  destruct Hwf as [_ _ _ _ _ _ _ Hfree].
  split; [done|]. split; [done|]. split; [set_solver|].
  apply elem_of_dom in Hlive as [t Ht]. exists t.
  destruct (uthread_get_quantums_live _ _ _ Ht) as [s' Hs']. by exists s'.
Qed.

Lemma main_thread_always_live_witness :
  0 ∈ dom (threads (threadsCollectionManager blocked_waiter_state)) ∧
  (0 ∉ blocked (threadsCollectionManager blocked_waiter_state)) ∧
  (0 ∉ available_ids (threadsCollectionManager blocked_waiter_state)) ∧
  ∃ t s', threads (threadsCollectionManager blocked_waiter_state) !! 0 = Some t ∧
          uthread_get_quantums 0 blocked_waiter_state = Returns (int_of_size_t (quantums t)) s'.
Proof.
  apply (main_thread_always_live 100 4096).
  apply state_after_reachable. vm_compute. eexists. reflexivity.
Defined.

(** * The mutex *)

(** X4. In every reachable state the mutex is locked exactly when its holder
    is not -1, and the holder of a locked mutex is a live thread. Locking an
    unlocked mutex therefore succeeds at once: the call returns 0 with the
    caller as holder and changes nothing else; and if the mutex line is empty,
    unlocking right after gives the state before the lock back. *)
Theorem mutex_holder_live (MAX_THREAD_NUM STACK_SIZE : Z) (s : State) :
  reachable MAX_THREAD_NUM STACK_SIZE s →
  (locked (mutex s) = true ↔ locking_thread (mutex s) ≠ -1) ∧
  (locked (mutex s) = true →
     locking_thread (mutex s) ∈ dom (threads (threadsCollectionManager s))) ∧
  (locked (mutex s) = false →
     ∃ s1, uthread_mutex_lock s = Returns 0 s1 ∧
           mutex s1 = {| locked := true;
                         locking_thread := curr_thread_id (threadsCollectionManager s) |} ∧
           threadsCollectionManager s1 = threadsCollectionManager s ∧
           total_quantums s1 = total_quantums s ∧
           (waiting_fot_mutex (threadsCollectionManager s) = ∅ →
              ∃ s2, uthread_mutex_unlock s1 = Returns 0 s2 ∧ same_library_state s s2)).
Proof.
  intros Hr.
  destruct (reachable_mutex_consistent _ _ _ _ Hr) as [Hu Hl].
  pose proof (reachable_ids_partitioned _ _ _ _ Hr) as Hpool. unfold ids_partitioned in Hpool.
  pose proof (reachable_by_Inv _ _ _ _ Hr) as HI.
  assert (∀ i, i ∈ dom (threads (threadsCollectionManager s)) → i ≠ -1) as Hid.
  { intros i Hi ->.
    assert (-1 ∈ id_pool MAX_THREAD_NUM) as Hp by (rewrite <- Hpool; set_solver).
    apply elem_of_id_pool in Hp. lia. }
  split; [|split; [done|]].
  - split.
    + intros Hlk. by apply Hid, Hl.
    + intros Hne. destruct (locked (mutex s)); [done|]. by destruct Hne; apply Hu.
  - intros Hlk. specialize (Hu Hlk).
    assert (locking_thread (mutex s) ≠ curr_thread_id (threadsCollectionManager s)) as Hne.
    { rewrite Hu. intros Heq. by apply (Hid _ (inv_curr_live _ HI)). }
    unfold uthread_mutex_lock. repeat (rewrite ?manager_mask_time_signal, ?mutex_mask_time_signal,
      ?total_quantums_mask_time_signal; simpl). rewrite Hlk.
    rewrite bool_decide_eq_false_2 by done.
    eexists. split; [reflexivity|]. unfold take_mutex. repeat (rewrite ?manager_mask_time_signal, ?mutex_mask_time_signal,
      ?total_quantums_mask_time_signal; simpl).
    split; [done|]. split; [done|]. split; [done|].
    intros Hw. unfold uthread_mutex_unlock. repeat (rewrite ?manager_mask_time_signal, ?mutex_mask_time_signal,
      ?total_quantums_mask_time_signal; simpl).
    rewrite bool_decide_eq_false_2 by (intros Hn; by apply Hn). simpl.
    eexists. split; [reflexivity|]. unfold same_library_state. repeat (rewrite ?manager_mask_time_signal, ?mutex_mask_time_signal,
      ?total_quantums_mask_time_signal; simpl).
    split; [|split; [|done]].
    + unfold advance_mutex_line. by rewrite bool_decide_eq_true_2.
    + destruct (mutex s) as [l h]. simpl in *. by rewrite Hlk, Hu.
Qed.

Lemma mutex_holder_live_witness :
  (locked (mutex holder_ready) = true ↔ locking_thread (mutex holder_ready) ≠ -1) ∧
  (locked (mutex holder_ready) = true →
     locking_thread (mutex holder_ready) ∈ dom (threads (threadsCollectionManager holder_ready))) ∧
  (locked (mutex holder_ready) = false →
     ∃ s1, uthread_mutex_lock holder_ready = Returns 0 s1 ∧
           mutex s1 = {| locked := true;
                         locking_thread := curr_thread_id (threadsCollectionManager holder_ready) |} ∧
           threadsCollectionManager s1 = threadsCollectionManager holder_ready ∧
           total_quantums s1 = total_quantums holder_ready ∧
           (waiting_fot_mutex (threadsCollectionManager holder_ready) = ∅ →
              ∃ s2, uthread_mutex_unlock s1 = Returns 0 s2 ∧ same_library_state holder_ready s2)).
Proof.
  apply (mutex_holder_live 100 4096).
  apply state_after_reachable. vm_compute. eexists. reflexivity.
Defined.

(** * Blocking *)

Lemma filter_ne_idemp (tid : Z) (l : list Z) :
  filter (λ x, x ≠ tid) (filter (λ x, x ≠ tid) l) = filter (λ x, x ≠ tid) l.
Proof.
  induction l as [|y l IH]; [done|].
  rewrite filter_cons. case_decide; [|done].
  rewrite filter_cons. rewrite decide_True by done. by rewrite IH.
Qed.

Lemma filter_ne_absent (tid : Z) (l : list Z) :
  tid ∉ l → filter (λ x, x ≠ tid) l = l.
Proof.
  induction l as [|y l IH]; [done|]. intros Hn.
  apply not_elem_of_cons in Hn as [Hne Hn].
  rewrite filter_cons, decide_True by done. by rewrite IH.
Qed.

Lemma block_idemp (tid : Z) (m : Manager) : block tid (block tid m) = block tid m.
Proof.
  unfold block. simpl. rewrite filter_ne_idemp.
  assert ({[ tid ]} ∪ ({[ tid ]} ∪ blocked m) = {[ tid ]} ∪ blocked m) as -> by set_solver.
  done.
Qed.

Lemma uthread_block_other (s : State) (tid : Z) :
  tid ≠ 0 → tid ∈ dom (threads (threadsCollectionManager s)) →
  tid ≠ curr_thread_id (threadsCollectionManager s) →
  uthread_block tid s =
    Returns 0 (mask_time_signal SIG_UNBLOCK
                 (with_manager (block tid) (mask_time_signal SIG_BLOCK s))).
Proof.
  intros H0 Hd Hc. unfold uthread_block.
  rewrite manager_mask_time_signal. unfold contains, get_curr_id.
  rewrite (bool_decide_eq_false_2 (tid = 0)) by done.
  rewrite bool_decide_eq_true_2 by (by apply elem_of_dom). simpl.
  by rewrite bool_decide_eq_false_2 by (intros Hn; by apply Hc).
Qed.

(** X5. [uthread_block tid] returns -1 and changes nothing when [tid] is the
    main thread or no live thread. For another live thread that is not
    running it returns 0, puts [tid] in the blocked set and takes it out of the
    ready queue, and blocking it once more changes nothing. When the running
    thread blocks itself and the ready queue is not empty, the front of the
    queue becomes the running thread, the caller is in the blocked set and a
    new quantum is counted before control is passed on. *)
Theorem uthread_block_spec (s : State) (tid : Z) :
  (tid = 0 ∨ tid ∉ dom (threads (threadsCollectionManager s)) →
     ∃ s', uthread_block tid s = Returns (-1) s' ∧ same_library_state s s') ∧
  (tid ≠ 0 → tid ∈ dom (threads (threadsCollectionManager s)) →
   tid ≠ curr_thread_id (threadsCollectionManager s) →
     ∃ s', uthread_block tid s = Returns 0 s' ∧
           threadsCollectionManager s' = block tid (threadsCollectionManager s) ∧
           mutex s' = mutex s ∧ total_quantums s' = total_quantums s ∧
           tid ∈ blocked (threadsCollectionManager s') ∧
           (tid ∉ readyQueue (threadsCollectionManager s')) ∧
           ∃ s'', uthread_block tid s' = Returns 0 s'' ∧ same_library_state s' s'') ∧
  (tid ≠ 0 → tid ∈ dom (threads (threadsCollectionManager s)) →
   tid = curr_thread_id (threadsCollectionManager s) →
   ∀ next rest, readyQueue (threadsCollectionManager s) = next :: rest →
     ∃ s1, uthread_block tid s
             = siglongjmp (S (length (readyQueue (threadsCollectionManager s1)))) s1 ∧
           curr_thread_id (threadsCollectionManager s1) = next ∧
           blocked (threadsCollectionManager s1)
             = {[ tid ]} ∪ blocked (threadsCollectionManager s) ∧
           readyQueue (threadsCollectionManager s1) = filter (λ x, x ≠ tid) rest ∧
           total_quantums s1 = size_t_incr (total_quantums s)).
Proof.
  split; [|split].
  - intros Hbad. unfold uthread_block. rewrite manager_mask_time_signal.
    assert (bool_decide (tid = 0) || negb (contains tid (threadsCollectionManager s)) = true)
      as ->.
    { destruct Hbad as [->|Hn]; [done|]. unfold contains.
      rewrite (bool_decide_eq_false_2 (is_Some _)) by (by rewrite <- elem_of_dom).
      apply orb_true_r. }
    eexists. split; [reflexivity|]. unfold same_library_state. by repeat (rewrite ?manager_mask_time_signal, ?mutex_mask_time_signal,
      ?total_quantums_mask_time_signal; simpl).
  - intros H0 Hd Hc. rewrite (uthread_block_other _ _ H0 Hd Hc).
    eexists. split; [reflexivity|]. repeat (rewrite ?manager_mask_time_signal, ?mutex_mask_time_signal,
      ?total_quantums_mask_time_signal; simpl).
    split; [done|]. split; [done|]. split; [done|].
    split; [set_solver|]. split.
    { intros [Hne _]%list_elem_of_filter. by apply Hne. }
    rewrite uthread_block_other; [|done|by rewrite manager_mask_time_signal|by rewrite manager_mask_time_signal].
    eexists. split; [reflexivity|]. unfold same_library_state. repeat (rewrite ?manager_mask_time_signal, ?mutex_mask_time_signal,
      ?total_quantums_mask_time_signal; simpl).
    by rewrite block_idemp.
  - intros H0 Hd Hc next rest Hq. unfold uthread_block.
    rewrite manager_mask_time_signal. unfold contains, get_curr_id.
    rewrite (bool_decide_eq_false_2 (tid = 0)) by done.
    rewrite bool_decide_eq_true_2 by (by apply elem_of_dom). simpl.
    rewrite bool_decide_eq_true_2 by done.
    unfold switch_threads_mid_quantum, switch_threads, set_timer.
    rewrite (switch_threads_body_pick _ _ _ next rest)
      by (by rewrite manager_mask_time_signal).
    eexists. split; [reflexivity|]. repeat (rewrite ?manager_mask_time_signal, ?mutex_mask_time_signal,
      ?total_quantums_mask_time_signal; simpl).
    rewrite curr_thread_id_update_thread, blocked_update_thread, readyQueue_update_thread.
    simpl. by rewrite blocked_update_thread.
Qed.

Lemma uthread_block_spec_witness :
  (∃ s', uthread_block 0 two_ready = Returns (-1) s' ∧ same_library_state two_ready s') ∧
  (∃ s', uthread_block 2 two_ready = Returns 0 s' ∧
         threadsCollectionManager s' = block 2 (threadsCollectionManager two_ready) ∧
         mutex s' = mutex two_ready ∧ total_quantums s' = total_quantums two_ready ∧
         2 ∈ blocked (threadsCollectionManager s') ∧
         (2 ∉ readyQueue (threadsCollectionManager s')) ∧
         ∃ s'', uthread_block 2 s' = Returns 0 s'' ∧ same_library_state s' s'') ∧
  (∃ s1, uthread_block 1 (state_after 100 4096 100000 [Spawn 7; Spawn 8; TimerTick])
           = siglongjmp (S (length (readyQueue (threadsCollectionManager s1)))) s1 ∧
         curr_thread_id (threadsCollectionManager s1) = 2 ∧
         blocked (threadsCollectionManager s1)
           = {[ 1 ]} ∪ blocked (threadsCollectionManager
                                  (state_after 100 4096 100000 [Spawn 7; Spawn 8; TimerTick])) ∧
         readyQueue (threadsCollectionManager s1) = filter (λ x, x ≠ 1) [0] ∧
         total_quantums s1 = size_t_incr (total_quantums
                               (state_after 100 4096 100000 [Spawn 7; Spawn 8; TimerTick]))).
Proof.
  split; [|split].
  - apply (proj1 (uthread_block_spec two_ready 0)). by left.
  - apply (proj1 (proj2 (uthread_block_spec two_ready 2))).
    + discriminate.
    + apply (bool_decide_unpack _). vm_compute. exact I.
    + vm_compute. discriminate.
  - apply (proj2 (proj2 (uthread_block_spec
             (state_after 100 4096 100000 [Spawn 7; Spawn 8; TimerTick]) 1))).
    + discriminate.
    + apply (bool_decide_unpack _). vm_compute. exact I.
    + reflexivity.
    + reflexivity.
Defined.

Lemma uthread_resume_live (s : State) (tid : Z) :
  tid ∈ dom (threads (threadsCollectionManager s)) →
  uthread_resume tid s =
    Returns 0 (mask_time_signal SIG_UNBLOCK
                 (with_manager
                    (λ m, set_as_ready tid (set_blocked (blocked m ∖ {[ tid ]}) m))
                    (mask_time_signal SIG_BLOCK s))).
Proof.
  intros Hd. unfold uthread_resume, resume, contains.
  rewrite manager_mask_time_signal.
  by rewrite bool_decide_eq_true_2 by (by apply elem_of_dom).
Qed.

Lemma manager_with_manager (f : Manager → Manager) (s : State) :
  threadsCollectionManager (with_manager f s) = f (threadsCollectionManager s).
Proof. done. Qed.

Lemma mutex_with_manager (f : Manager → Manager) (s : State) :
  mutex (with_manager f s) = mutex s.
Proof. done. Qed.

Lemma total_quantums_with_manager (f : Manager → Manager) (s : State) :
  total_quantums (with_manager f s) = total_quantums s.
Proof. done. Qed.

Lemma block_then_ready (tid : Z) (m : Manager) :
  wf m → tid ≠ curr_thread_id m → tid ∈ readyQueue m →
  set_as_ready tid (set_blocked (blocked (block tid m) ∖ {[ tid ]}) (block tid m))
  = set_readyQueue (filter (λ x, x ≠ tid) (readyQueue m) ++ [tid]) m.
Proof.
  intros Hwf Hc Hr. wf_intro Hwf. use_ready Hrdy tid Hr.
  unfold set_as_ready, block, set_readyQueue, set_blocked.
  destruct m as [c th rq wm av bl st]. cbn in *.
  rewrite !bool_decide_eq_true_2.
  - cbn. f_equal. ss.
  - ss.
  - done.
  - intros [Hne _]%list_elem_of_filter. by apply Hne.
  - by intros Heq.
Qed.

Lemma ready_then_block (tid : Z) (m : Manager) :
  wf m → tid ≠ curr_thread_id m → tid ∈ blocked m →
  block tid (set_as_ready tid (set_blocked (blocked m ∖ {[ tid ]}) m)) = m.
Proof.
  intros Hwf Hc Hb. wf_intro Hwf.
  assert (tid ∉ readyQueue m) as Hnr.
  { intros Hx. use_ready Hrdy tid Hx. done. }
  assert ({[ tid ]} ∪ blocked m ∖ {[ tid ]} = blocked m) as Hbl.
  { apply set_eq. intros x. destruct (decide (x = tid)) as [->|]; ss. }
  unfold set_as_ready, block, set_readyQueue, set_blocked.
  destruct m as [c th rq wm av bl st]. cbn in *.
  case_match; cbn.
  - rewrite filter_app, (filter_ne_absent _ _ Hnr).
    rewrite filter_cons, decide_False by (intros Hn; by apply Hn).
    rewrite filter_nil, app_nil_r. by rewrite Hbl.
  - rewrite (filter_ne_absent _ _ Hnr). by rewrite Hbl.
Qed.

(** X6. In a consistent state, for a live thread [tid] other than main that
    is not running: if it is ready, blocking and then resuming it moves it to
    the back of the ready queue and changes nothing else; if it is blocked,
    resuming and then blocking it again gives the same library state back. *)
Theorem block_resume_round_trip (s : State) (tid : Z) :
  Inv s → tid ≠ 0 →
  tid ∈ dom (threads (threadsCollectionManager s)) →
  tid ≠ curr_thread_id (threadsCollectionManager s) →
  (tid ∈ readyQueue (threadsCollectionManager s) →
     ∃ s1 s2, uthread_block tid s = Returns 0 s1 ∧ uthread_resume tid s1 = Returns 0 s2 ∧
              threadsCollectionManager s2 =
                set_readyQueue
                  (filter (λ x, x ≠ tid) (readyQueue (threadsCollectionManager s)) ++ [tid])
                  (threadsCollectionManager s) ∧
              mutex s2 = mutex s ∧ total_quantums s2 = total_quantums s) ∧
  (tid ∈ blocked (threadsCollectionManager s) →
     ∃ s1 s2, uthread_resume tid s = Returns 0 s1 ∧ uthread_block tid s1 = Returns 0 s2 ∧
              same_library_state s s2).
Proof.
  intros [Hwf _] H0 Hd Hc. split.
  - intros Hr.
    rewrite (uthread_block_other _ _ H0 Hd Hc). eexists _, _. split; [reflexivity|].
    rewrite uthread_resume_live
      by (by rewrite manager_mask_time_signal, manager_with_manager,
               manager_mask_time_signal).
    split; [reflexivity|].
    repeat rewrite ?manager_mask_time_signal, ?mutex_mask_time_signal,
      ?total_quantums_mask_time_signal, ?manager_with_manager, ?mutex_with_manager,
      ?total_quantums_with_manager.
    split; [|done]. by apply block_then_ready.
  - intros Hb. rewrite (uthread_resume_live _ _ Hd).
    eexists _, _. split; [reflexivity|].
    rewrite uthread_block_other; [|done| |].
    + split; [reflexivity|]. unfold same_library_state.
      repeat rewrite ?manager_mask_time_signal, ?mutex_mask_time_signal,
        ?total_quantums_mask_time_signal, ?manager_with_manager, ?mutex_with_manager,
        ?total_quantums_with_manager.
      split; [|done]. cbv beta. by rewrite ready_then_block.
    + rewrite manager_mask_time_signal, manager_with_manager, manager_mask_time_signal.
      by rewrite threads_set_as_ready.
    + rewrite manager_mask_time_signal, manager_with_manager, manager_mask_time_signal.
      by rewrite curr_thread_id_set_as_ready.
Qed.

Lemma block_resume_round_trip_witness :
  (∃ s1 s2, uthread_block 1 two_ready = Returns 0 s1 ∧ uthread_resume 1 s1 = Returns 0 s2 ∧
            threadsCollectionManager s2 =
              set_readyQueue
                (filter (λ x, x ≠ 1) (readyQueue (threadsCollectionManager two_ready)) ++ [1])
                (threadsCollectionManager two_ready) ∧
            mutex s2 = mutex two_ready ∧ total_quantums s2 = total_quantums two_ready) ∧
  (∃ s1 s2, uthread_resume 1 blocked_waiter_state = Returns 0 s1 ∧
            uthread_block 1 s1 = Returns 0 s2 ∧
            same_library_state blocked_waiter_state s2).
Proof.
  split.
  - apply (proj1 (block_resume_round_trip two_ready 1
             ltac:(apply (reachable_by_Inv (λ _, True) 100 4096), state_after_reachable;
                   vm_compute; eexists; reflexivity)
             ltac:(discriminate)
             ltac:(apply (bool_decide_unpack _); vm_compute; exact I)
             ltac:(vm_compute; discriminate))).
    apply (bool_decide_unpack _). vm_compute. exact I.
  - apply (proj2 (block_resume_round_trip blocked_waiter_state 1
             ltac:(apply (reachable_by_Inv (λ _, True) 100 4096), state_after_reachable;
                   vm_compute; eexists; reflexivity)
             ltac:(discriminate)
             ltac:(apply (bool_decide_unpack _); vm_compute; exact I)
             ltac:(vm_compute; discriminate))).
    apply (bool_decide_unpack _). vm_compute. exact I.
Defined.

(** * Termination of a thread *)

Lemma partition_after_free (D D' A : gset Z) (tid : Z) :
  D' ∪ ({[ tid ]} ∪ A) = D ∪ A → A ## D → ({[ tid ]} ∪ A) ## D' → tid ∈ D →
  D' = D ∖ {[ tid ]}.
Proof.
  intros He H1 H2 Hin. apply set_eq. intros x.
  assert (x ∈ D' ∪ ({[ tid ]} ∪ A) ↔ x ∈ D ∪ A) as Hx by (by rewrite He).
  specialize (H1 x). specialize (H2 x). clear He.
  rewrite !elem_of_union, elem_of_singleton in Hx.
  rewrite elem_of_union, elem_of_singleton in H2.
  rewrite elem_of_difference, elem_of_singleton.
  destruct (decide (x = tid)) as [->|Hne]; tauto.
Qed.

(** X7. [uthread_terminate 0] ends the process with status 0 whatever the
    state. For an id other than 0 that is no live thread it returns -1 and
    changes nothing. For a live thread other than main in a reachable state,
    whenever user code runs again the live threads are the former ones
    without [tid], the id is free for reuse, and [tid] is neither the running
    thread, nor in the ready queue, the blocked set or the mutex line, nor
    the holder of the mutex. *)
Theorem uthread_terminate_spec (M S : Z) (s : State) (tid : Z) :
  uthread_terminate 0 s = Exits 0 ∧
  (tid ≠ 0 → tid ∉ dom (threads (threadsCollectionManager s)) →
     ∃ s', uthread_terminate tid s = Returns (-1) s' ∧ same_library_state s s') ∧
  (reachable M S s → tid ≠ 0 → tid ∈ dom (threads (threadsCollectionManager s)) →
   ∀ s', steady (uthread_terminate tid s) = Some s' →
     dom (threads (threadsCollectionManager s'))
       = dom (threads (threadsCollectionManager s)) ∖ {[ tid ]} ∧
     tid ∈ available_ids (threadsCollectionManager s') ∧
     curr_thread_id (threadsCollectionManager s') ≠ tid ∧
     (tid ∉ readyQueue (threadsCollectionManager s')) ∧
     (tid ∉ blocked (threadsCollectionManager s')) ∧
     (tid ∉ waiting_fot_mutex (threadsCollectionManager s')) ∧
     locking_thread (mutex s') ≠ tid).
Proof.
  split; [done|]. split.
  - intros H0 Hn. unfold uthread_terminate.
    rewrite bool_decide_eq_false_2 by done.
    rewrite manager_mask_time_signal. unfold contains.
    rewrite (bool_decide_eq_false_2 (is_Some _)) by (by rewrite <- elem_of_dom).
    eexists. split; [reflexivity|]. unfold same_library_state, sigprocmask. simpl.
    by rewrite ?manager_mask_time_signal, ?mutex_mask_time_signal,
         ?total_quantums_mask_time_signal.
  - intros Hr H0 Hd s' Hs.
    assert (reachable M S s') as Hr'.
    { by apply (reachable_step _ _ _ (Terminate tid) s s'). }
    pose proof (available_ids_uthread_terminate _ _ _ (reachable_by_Inv _ _ _ _ Hr) Hd Hs)
      as Hav.
    pose proof (reachable_ids_partitioned _ _ _ _ Hr) as Hp.
    pose proof (reachable_ids_partitioned _ _ _ _ Hr') as Hp'.
    pose proof (reachable_mutex_consistent _ _ _ _ Hr') as [Hu Hl].
    destruct (reachable_by_Inv _ _ _ _ Hr) as [Hwf _].
    destruct (reachable_by_Inv _ _ _ _ Hr') as [Hwf' _].
    unfold ids_partitioned in Hp, Hp'. rewrite Hav in Hp'.
    assert (tid ∈ id_pool M) as Hpool by (rewrite <- Hp; by apply elem_of_union_l).
    apply elem_of_id_pool in Hpool.
    pose proof (wf_free _ _ Hwf) as Hf.
    pose proof (wf_free _ _ Hwf') as Hf'. rewrite Hav in Hf'.
    pose proof (wf_curr _ _ Hwf') as Hcur'.
    pose proof (wf_sub _ _ Hwf') as Hsub'.
    assert (tid ∉ dom (threads (threadsCollectionManager s'))) as Hgone.
    { intros Hx. apply (Hf' tid); [|done]. apply elem_of_union_l. by apply elem_of_singleton. }
    split; [|split; [|split; [|split; [|split; [|split]]]]].
    + rewrite <- Hp in Hp'. by apply (partition_after_free _ _ _ _ Hp').
    + rewrite Hav. apply elem_of_union_l. by apply elem_of_singleton.
    + intros Heq. rewrite Heq in Hcur'. done.
    + intros Hx. by destruct (wf_ready _ _ Hwf' tid Hx) as [? _].
    + intros Hx. apply Hgone, Hsub'. by do 2 apply elem_of_union_l.
    + intros Hx. apply Hgone, Hsub'. by apply elem_of_union_l, elem_of_union_r.
    + intros Heq. destruct (locked (mutex s')) eqn:El.
      * apply Hgone. rewrite <- Heq. by apply Hl.
      * rewrite Hu in Heq by done. lia.
Qed.

Lemma uthread_terminate_spec_witness :
  uthread_terminate 0 two_ready = Exits 0 ∧
  (∃ s', uthread_terminate 5 two_ready = Returns (-1) s' ∧ same_library_state two_ready s') ∧
  (∀ s', steady (uthread_terminate 1 two_ready) = Some s' →
     dom (threads (threadsCollectionManager s'))
       = dom (threads (threadsCollectionManager two_ready)) ∖ {[ 1 ]} ∧
     1 ∈ available_ids (threadsCollectionManager s') ∧
     curr_thread_id (threadsCollectionManager s') ≠ 1 ∧
     (1 ∉ readyQueue (threadsCollectionManager s')) ∧
     (1 ∉ blocked (threadsCollectionManager s')) ∧
     (1 ∉ waiting_fot_mutex (threadsCollectionManager s')) ∧
     locking_thread (mutex s') ≠ 1).
Proof.
  split; [|split].
  - apply (proj1 (uthread_terminate_spec 100 4096 two_ready 1)).
  - apply (proj1 (proj2 (uthread_terminate_spec 100 4096 two_ready 5))).
    + discriminate.
    + apply (bool_decide_unpack _). vm_compute. exact I.
  - apply (proj2 (proj2 (uthread_terminate_spec 100 4096 two_ready 1))).
    + apply state_after_reachable. vm_compute. eexists. reflexivity.
    + discriminate.
    + apply (bool_decide_unpack _). vm_compute. exact I.
Defined.

(** * Calls that return without a context switch *)

Lemma Returns_inj {A : Type} (v v' : A) (s s' : State) :
  Returns v s = Returns v' s' → v = v' ∧ s = s'.
Proof. intros H. by inversion H. Qed.

Lemma no_quantum_counted_frame (s s' : State) :
  total_quantums s' = total_quantums s →
  curr_thread_id (threadsCollectionManager s') = curr_thread_id (threadsCollectionManager s) →
  threads (threadsCollectionManager s') ⊆ threads (threadsCollectionManager s) →
  no_quantum_counted s s'.
Proof.
  intros Ht Hc Hsub. split; [done|]. split; [done|]. intros i t' Hi. left.
  by eapply lookup_weaken.
Qed.

Lemma switch_threads_mid_quantum_never_returns {A : Type} (site : ProgramPoint)
    (h : State → State) (s : State) (v : A) (s' : State) :
  switch_threads_mid_quantum site h s ≠ Returns v s'.
Proof. unfold switch_threads_mid_quantum. apply switch_threads_never_returns. Qed.

(** X8. Whenever one of the nine calls after [uthread_init] returns to its
    caller without a context switch, no quantum has been counted: the total,
    the running thread and every counter are as before; the only records that
    differ are those of terminated threads, which are gone, and that of a
    newly spawned thread, whose counter is 0. *)
Theorem returning_call_counts_no_quantum (s s' : State) (v : Z) :
  (∀ f, uthread_spawn f s = Returns v s' → no_quantum_counted s s') ∧
  (∀ tid, uthread_terminate tid s = Returns v s' → no_quantum_counted s s') ∧
  (∀ tid, uthread_block tid s = Returns v s' → no_quantum_counted s s') ∧
  (∀ tid, uthread_resume tid s = Returns v s' → no_quantum_counted s s') ∧
  (uthread_mutex_lock s = Returns v s' → no_quantum_counted s s') ∧
  (uthread_mutex_unlock s = Returns v s' → no_quantum_counted s s') ∧
  (uthread_get_tid s = Returns v s' → no_quantum_counted s s') ∧
  (uthread_get_total_quantums s = Returns v s' → no_quantum_counted s s') ∧
  (∀ tid, uthread_get_quantums tid s = Returns v s' → no_quantum_counted s s').
Proof.
  split; [|split; [|split; [|split; [|split; [|split; [|split; [|split]]]]]]].
  - intros f H. unfold uthread_spawn, create_thread in H.
    destruct (set_begin _) as [n|]; apply Returns_inj in H as [_ <-];
      [|by apply no_quantum_counted_frame].
    split; [done|]. split; [done|]. simpl.
    intros i t' [[<- <-]|[_ Hi]]%lookup_insert_Some; [by right|by left].
  - intros tid H. unfold uthread_terminate in H. case_bool_decide; [done|].
    case_match.
    { apply Returns_inj in H as [_ <-]. apply no_quantum_counted_frame; unfold sigprocmask; simpl;
        by rewrite ?total_quantums_mask_time_signal, ?manager_mask_time_signal. }
    case_bool_decide; [by apply switch_threads_mid_quantum_never_returns in H|].
    apply Returns_inj in H as [_ <-]. apply no_quantum_counted_frame.
    + rewrite total_quantums_mask_time_signal. unfold delete_thread.
      case_bool_decide; simpl; by rewrite ?total_quantums_mask_time_signal.
    + by rewrite manager_mask_time_signal, curr_thread_id_delete_thread,
           manager_mask_time_signal.
    + rewrite manager_mask_time_signal, threads_delete_thread, manager_mask_time_signal.
      apply delete_subseteq.
  - intros tid H. unfold uthread_block in H. case_match.
    { apply Returns_inj in H as [_ <-]. apply no_quantum_counted_frame;
        by rewrite ?total_quantums_mask_time_signal, ?manager_mask_time_signal. }
    case_bool_decide; [by apply switch_threads_mid_quantum_never_returns in H|].
    apply Returns_inj in H as [_ <-]. apply no_quantum_counted_frame;
      by rewrite ?total_quantums_mask_time_signal, ?manager_mask_time_signal,
           ?manager_with_manager, ?manager_mask_time_signal.
  - intros tid H. unfold uthread_resume, resume in H.
    rewrite manager_mask_time_signal in H.
    destruct (contains tid (threadsCollectionManager s));
      apply Returns_inj in H as [_ <-]; apply no_quantum_counted_frame;
      rewrite ?total_quantums_mask_time_signal, ?manager_mask_time_signal; simpl;
      rewrite ?total_quantums_mask_time_signal, ?curr_thread_id_set_as_ready,
        ?threads_set_as_ready; done.
  - intros H. unfold uthread_mutex_lock in H. case_bool_decide.
    { apply Returns_inj in H as [_ <-]. apply no_quantum_counted_frame;
        by rewrite ?total_quantums_mask_time_signal, ?manager_mask_time_signal. }
    case_match; [by apply switch_threads_mid_quantum_never_returns in H|].
    apply Returns_inj in H as [_ <-]. unfold take_mutex. apply no_quantum_counted_frame;
      rewrite ?total_quantums_mask_time_signal, ?manager_mask_time_signal; simpl;
      by rewrite ?total_quantums_mask_time_signal, ?manager_mask_time_signal.
  - intros H. unfold uthread_mutex_unlock in H. case_match;
      apply Returns_inj in H as [_ <-]; apply no_quantum_counted_frame;
      rewrite ?total_quantums_mask_time_signal, ?manager_mask_time_signal; simpl;
      rewrite ?total_quantums_mask_time_signal, ?curr_thread_id_advance_mutex_line,
        ?threads_advance_mutex_line, ?manager_mask_time_signal; done.
  - intros H. apply Returns_inj in H as [_ <-]. by apply no_quantum_counted_frame.
  - intros H. apply Returns_inj in H as [_ <-]. by apply no_quantum_counted_frame.
  - intros tid H. unfold uthread_get_quantums in H. case_match eqn:Ec.
    { apply Returns_inj in H as [_ <-]. apply no_quantum_counted_frame;
        by rewrite ?total_quantums_mask_time_signal, ?manager_mask_time_signal. }
    unfold contains in Ec. apply negb_false_iff, bool_decide_eq_true in Ec as [t Ht].
    unfold get_thread in H. rewrite Ht in H.
    apply Returns_inj in H as [_ <-]. apply no_quantum_counted_frame;
      rewrite ?total_quantums_mask_time_signal, ?manager_mask_time_signal; simpl;
      by rewrite ?total_quantums_mask_time_signal, ?manager_mask_time_signal.
Qed.

Lemma returning_call_counts_no_quantum_witness :
  no_quantum_counted two_ready
    (mask_time_signal SIG_UNBLOCK
       (with_manager (block 2) (mask_time_signal SIG_BLOCK two_ready))).
Proof.
  apply (proj1 (proj2 (proj2 (returning_call_counts_no_quantum two_ready _ 0))) 2).
  vm_compute. reflexivity.
Defined.

(** * The ready queue *)




(** * Timer ticks never leave defined behaviour *)






Lemma waiting_fot_mutex_update_thread (tid : Z) (g : Thread → Thread) (m : Manager) :
  waiting_fot_mutex (update_thread tid g m) = waiting_fot_mutex m.
Proof. unfold update_thread, get_thread. by destruct (threads m !! tid). Qed.




(** * Switching with an empty ready queue *)

Lemma switch_threads_body_empty (site : ProgramPoint) (h : State → State) (s : State) :
  readyQueue (threadsCollectionManager s) = [] → switch_threads_body site h s = None.
Proof.
  intros Hq. unfold switch_threads_body, set_next_thread_as_running. simpl.
  by rewrite readyQueue_update_thread, Hq.
Qed.

Lemma switch_threads_mid_quantum_empty {A : Type} (site : ProgramPoint) (h : State → State)
    (s : State) :
  readyQueue (threadsCollectionManager s) = [] →
  switch_threads_mid_quantum (A:=A) site h s = Undefined.
Proof.
  intros Hq. unfold switch_threads_mid_quantum, switch_threads, set_timer.
  by rewrite switch_threads_body_empty.
Qed.

(** X11. With an empty ready queue every context switch asked for by the
    running thread leaves defined behaviour, since [switch_threads] takes the
    front of the ready queue without a test: the running thread (not main)
    blocking or terminating itself, and [uthread_mutex_lock] called while
    another thread holds the mutex. *)
Theorem voluntary_switch_with_empty_ready_queue (s : State) :
  readyQueue (threadsCollectionManager s) = [] →
  (curr_thread_id (threadsCollectionManager s) ≠ 0 →
   curr_thread_id (threadsCollectionManager s) ∈ dom (threads (threadsCollectionManager s)) →
     uthread_block (curr_thread_id (threadsCollectionManager s)) s = Undefined ∧
     uthread_terminate (curr_thread_id (threadsCollectionManager s)) s = Undefined) ∧
  (locked (mutex s) = true →
   locking_thread (mutex s) ≠ curr_thread_id (threadsCollectionManager s) →
     uthread_mutex_lock s = Undefined).
Proof.
  intros Hq. split.
  - intros H0 Hl. split.
    + unfold uthread_block. rewrite manager_mask_time_signal. unfold contains, get_curr_id.
      rewrite (bool_decide_eq_false_2 (_ = 0)) by done.
      rewrite bool_decide_eq_true_2 by (by apply elem_of_dom). simpl.
      rewrite bool_decide_eq_true_2 by done.
      apply switch_threads_mid_quantum_empty. by rewrite manager_mask_time_signal.
    + unfold uthread_terminate. rewrite manager_mask_time_signal. unfold contains, get_curr_id.
      rewrite (bool_decide_eq_false_2 (_ = 0)) by done.
      rewrite bool_decide_eq_true_2 by (by apply elem_of_dom). simpl.
      rewrite bool_decide_eq_true_2 by done.
      apply switch_threads_mid_quantum_empty. by rewrite manager_mask_time_signal.
  - intros Hl Hh. unfold uthread_mutex_lock.
    rewrite manager_mask_time_signal, mutex_mask_time_signal. unfold get_curr_id.
    rewrite bool_decide_eq_false_2 by done. rewrite Hl.
    apply switch_threads_mid_quantum_empty. by rewrite manager_mask_time_signal.
Qed.

Lemma voluntary_switch_with_empty_ready_queue_witness :
  reachable 100 4096 holder_alone ∧
  (uthread_block (curr_thread_id (threadsCollectionManager holder_alone)) holder_alone
     = Undefined ∧
   uthread_terminate (curr_thread_id (threadsCollectionManager holder_alone)) holder_alone
     = Undefined) ∧
  reachable 100 4096 holder_blocked ∧
  uthread_mutex_lock holder_blocked = Undefined.
Proof.
  split; [apply state_after_reachable; vm_compute; eexists; reflexivity|].
  split.
  - apply (proj1 (voluntary_switch_with_empty_ready_queue holder_alone eq_refl)).
    + vm_compute. discriminate.
    + apply (bool_decide_unpack _). vm_compute. exact I.
  - split; [apply state_after_reachable; vm_compute; eexists; reflexivity|].
    apply (proj2 (voluntary_switch_with_empty_ready_queue holder_blocked eq_refl)).
    + reflexivity.
    + vm_compute. discriminate.
Defined.

(** * Waiting for the mutex *)

(** X12. [uthread_mutex_lock] called while another thread holds the mutex,
    with a thread in the ready queue: the caller goes to the mutex line and
    not to the ready queue, the front of the ready queue becomes the running
    thread, a quantum is counted for it, and the mutex is as it was, before
    control is passed on. *)
Theorem uthread_mutex_lock_contended (s : State) (next : Z) (rest : list Z) :
  locked (mutex s) = true →
  locking_thread (mutex s) ≠ curr_thread_id (threadsCollectionManager s) →
  readyQueue (threadsCollectionManager s) = next :: rest →
  ∃ s1, uthread_mutex_lock s
          = siglongjmp (S (length (readyQueue (threadsCollectionManager s1)))) s1 ∧
        curr_thread_id (threadsCollectionManager s1) = next ∧
        readyQueue (threadsCollectionManager s1) = rest ∧
        waiting_fot_mutex (threadsCollectionManager s1)
          = {[ curr_thread_id (threadsCollectionManager s) ]} ∪
            waiting_fot_mutex (threadsCollectionManager s) ∧
        blocked (threadsCollectionManager s1) = blocked (threadsCollectionManager s) ∧
        mutex s1 = mutex s ∧
        total_quantums s1 = size_t_incr (total_quantums s).
Proof.
  intros Hl Hh Hq. unfold uthread_mutex_lock.
  rewrite manager_mask_time_signal, mutex_mask_time_signal. unfold get_curr_id.
  rewrite bool_decide_eq_false_2 by done. rewrite Hl.
  unfold switch_threads_mid_quantum, switch_threads, set_timer.
  rewrite (switch_threads_body_pick _ _ _ next rest)
    by (by rewrite manager_mask_time_signal).
  eexists. split; [reflexivity|].
  rewrite !manager_with_manager, mutex_with_manager, total_quantums_with_manager.
  rewrite curr_thread_id_update_thread, readyQueue_update_thread,
    waiting_fot_mutex_update_thread, blocked_update_thread.
  cbn [threadsCollectionManager mutex total_quantums with_manager set_manager
       set_total_quantums wait_for_mutex set_waiting_fot_mutex curr_thread_id readyQueue
       waiting_fot_mutex blocked after_pick set_curr_thread_id set_readyQueue].
  rewrite waiting_fot_mutex_update_thread, blocked_update_thread,
    ?manager_mask_time_signal, ?mutex_mask_time_signal, ?total_quantums_mask_time_signal.
  done.
Qed.

Lemma uthread_mutex_lock_contended_witness :
  ∃ s1, uthread_mutex_lock holder_ready
          = siglongjmp (S (length (readyQueue (threadsCollectionManager s1)))) s1 ∧
        curr_thread_id (threadsCollectionManager s1) = 1 ∧
        readyQueue (threadsCollectionManager s1) = [2] ∧
        waiting_fot_mutex (threadsCollectionManager s1)
          = {[ curr_thread_id (threadsCollectionManager holder_ready) ]} ∪
            waiting_fot_mutex (threadsCollectionManager holder_ready) ∧
        blocked (threadsCollectionManager s1) = blocked (threadsCollectionManager holder_ready) ∧
        mutex s1 = mutex holder_ready ∧
        total_quantums s1 = size_t_incr (total_quantums holder_ready).
Proof.
  apply (uthread_mutex_lock_contended holder_ready 1 [2]).
  - reflexivity.
  - vm_compute. discriminate.
  - reflexivity.
Defined.

(** * The quantum query *)


